(** * white-label-gateway: the admin console's orchestration layer

    A shallow embedding of the JavaScript client code of the console
    (the axios transport client, the merchant and payment API modules,
    the payment form's redirect handling and the provider switch) and
    the properties its specification states about it. *)

From Stdlib Require Import Floats QArith Qround Qabs Qpower Lqa.
From stdpp Require Import gmap strings list fin_maps pretty.

#[local] Set Warnings "-register-all,-inexact-float".

(** ** The fragment of JavaScript the client code relies on *)

Module JS.

(** Values: what JSON decoding yields, plus [undefined]. Numbers are
    IEEE-754 binary64, as in the language. *)
Inductive value : Type :=
| VUndefined
| VNull
| VBool (b : bool)
| VNum (x : float)
| VStr (s : string)
| VObj (o : gmap string value)
| VArr (l : list value).

(** ToBoolean *)
Definition truthy (v : value) : bool :=
  match v with
  | VUndefined | VNull => false
  | VBool b => b
  | VNum x => negb (is_zero x || is_nan x)
  | VStr s => negb (String.eqb s "")
  | VObj _ | VArr _ => true
  end.

(** [a || b] *)
Definition or_else (a b : value) : value := if truthy a then a else b.

(** [typeof v] *)
Definition typeof (v : value) : string :=
  match v with
  | VUndefined => "undefined"
  | VNull | VObj _ | VArr _ => "object"
  | VBool _ => "boolean"
  | VNum _ => "number"
  | VStr _ => "string"
  end.

(** *** Number::toString, radix 10 (ECMA-262, 6.1.6.1.20) *)

Definition pow10 (n : Z) : Q := Qpower (10 # 1) n.
Definition pow2 (n : Z) : Q := Qpower (2 # 1) n.
Definition Qltb (a b : Q) : bool := negb (Qle_bool b a).

(** The reals that round to the binary64 value [m * 2^e] (to nearest,
    ties to even): the interval between the midpoints to its two
    neighbours, closed exactly when [m] is even. *)
Definition rounds_to (m : positive) (e : Z) (v : Q) : bool :=
  let hi := (inject_Z (2 * Z.pos m + 1) * pow2 (e - 1))%Q in
  let lo := if (Z.pos m =? 2 ^ 52)%Z && (-1074 <? e)%Z
            then (inject_Z (4 * Z.pos m - 1) * pow2 (e - 2))%Q
            else (inject_Z (2 * Z.pos m - 1) * pow2 (e - 1))%Q in
  if Z.even (Z.pos m)
  then Qle_bool lo v && Qle_bool v hi
  else Qltb lo v && Qltb v hi.

(** The least [n] from [n0] upwards with [x < 10^n]. *)
Fixpoint decade (fuel : nat) (x : Q) (n0 : Z) : Z :=
  match fuel with
  | O => n0
  | S fuel' => if Qltb x (pow10 n0) then n0 else decade fuel' x (n0 + 1)
  end.

(** A candidate digit string: the integer [s] to be read as
    [s * 10^(n-k)]. *)
Definition candidates (x : Q) (k n : Z) : list (Z * Z) :=
  let q := (x / pow10 (n - k))%Q in
  [(Qfloor q, n); (Qceiling q, n)].

Definition in_range (k : Z) (c : Z * Z) : bool :=
  (10 ^ (k - 1) <=? c.1)%Z && (c.1 <? 10 ^ k)%Z.

Definition distance (x : Q) (k : Z) (c : Z * Z) : Q :=
  Qabs (inject_Z c.1 * pow10 (c.2 - k) - x).

(** Of two candidates the one closer to [x]; on a tie the even one. *)
Definition closer (x : Q) (k : Z) (a b : Z * Z) : Z * Z :=
  if Qltb (distance x k b) (distance x k a) then b
  else if Qltb (distance x k a) (distance x k b) then a
  else if Z.even a.1 then a else b.

Definition closest (x : Q) (k : Z) (cs : list (Z * Z)) : option (Z * Z) :=
  match cs with
  | [] => None
  | c :: cs' => Some (foldr (closer x k) c cs')
  end.

(** Step 5 of the algorithm: [n], [k] and [s] with [k] as small as
    possible such that [s * 10^(n-k)] rounds to the number, and among
    those the [s] closest to it. The lengths are tried from [k]
    upwards, [fuel] more of them after [k]; seventeen digits always tell
    a binary64 value apart, so the search ends before the fuel does. *)
Definition digits (m : positive) (e : Z) (nx k : Z) : option (Z * Z) :=
  let x := (inject_Z (Z.pos m) * pow2 e)%Q in
  let ok c := in_range k c && rounds_to m e (inject_Z c.1 * pow10 (c.2 - k)) in
  closest x k (List.filter ok (candidates x k nx ++ candidates x k (nx + 1))).

Fixpoint shortest (fuel : nat) (m : positive) (e : Z) (nx k : Z) : Z * Z * Z :=
  match digits m e nx k with
  | Some (s, n) => (s, n, k)
  | None =>
      match fuel with
      | O => (Qfloor (inject_Z (Z.pos m) * pow2 e / pow10 (nx - k)), nx, k)
      | S fuel' => shortest fuel' m e nx (k + 1)
      end
  end.

Definition zeros (n : Z) : string :=
  Nat.iter (Z.to_nat n) (String.append "0") "".

(** Steps 6 to 10: lay the digits out. *)
Definition layout (s n k : Z) : string :=
  let ds := pretty s in
  if (k <=? n)%Z && (n <=? 21)%Z then ds +:+ zeros (n - k)
  else if (0 <? n)%Z && (n <=? 21)%Z then
    String.substring 0 (Z.to_nat n) ds +:+ "."
    +:+ String.substring (Z.to_nat n) (Z.to_nat (k - n)) ds
  else if (-6 <? n)%Z && (n <=? 0)%Z then "0." +:+ zeros (- n) +:+ ds
  else
    let ex := (if (n - 1 <? 0)%Z then "-" else "+") +:+ pretty (Z.abs (n - 1)) in
    if (k =? 1)%Z then ds +:+ "e" +:+ ex
    else String.substring 0 1 ds +:+ "."
         +:+ String.substring 1 (Z.to_nat (k - 1)) ds +:+ "e" +:+ ex.

Definition Number_toString (x : float) : string :=
  match Prim2SF x with
  | S754_nan => "NaN"
  | S754_zero _ => "0"
  | S754_infinity sign => if sign then "-Infinity" else "Infinity"
  | S754_finite sign m e =>
      let nx := decade 640 (inject_Z (Z.pos m) * pow2 e)%Q (-324) in
      let '(s, n, k) := shortest 16 m e nx 1 in
      (if sign then "-" else "") +:+ layout s n k
  end.

(** *** ToString, as applied by [String(v)] and by template literals *)

Definition join (parts : list string) : string :=
  match parts with
  | [] => ""
  | p :: ps => foldl (λ acc q, acc +:+ "," +:+ q) p ps
  end.

Fixpoint ToString (v : value) : string :=
  match v with
  | VUndefined => "undefined"
  | VNull => "null"
  | VBool b => if b then "true" else "false"
  | VNum x => Number_toString x
  | VStr s => s
  | VObj _ => "[object Object]"
  | VArr l =>
      join (map (λ w, match w with
                      | VUndefined | VNull => ""
                      | _ => ToString w
                      end) l)
  end.

(** [v.k] for a key [k] that names no built-in property ([id],
    [detail], [amount], ...): reading from [null] or [undefined]
    throws a TypeError (given by its message), an object yields its
    own property, and anything else yields [undefined]. *)
Definition get (v : value) (k : string) : string + value :=
  match v with
  | VUndefined => inl ("Cannot read properties of undefined (reading '" +:+ k +:+ "')")
  | VNull => inl ("Cannot read properties of null (reading '" +:+ k +:+ "')")
  | VObj o => inr (default VUndefined (o !! k))
  | _ => inr VUndefined
  end.

(** The own property [k] of an object, if it has one. *)
Definition own (v : value) (k : string) : option value :=
  match v with
  | VObj o => o !! k
  | _ => None
  end.

(** [new Error(message).message] *)
Definition Error_message (message : value) : string :=
  match message with
  | VUndefined => ""
  | _ => ToString message
  end.

End JS.

Import JS.

(** ** Build-time environment ([import.meta.env]) *)

Module Env.

Record env : Type := {
  VITE_API_BASE_URL : option string;
  VITE_MERCHANT_SERVICE_URL : option string;
  VITE_PAYMENT_SERVICE_URL : option string
}.

(** [import.meta.env.X || fallback]: an unset or empty variable gives
    the fallback. *)
Definition or_default (x : option string) (fallback : string) : string :=
  match x with
  | Some s => if String.eqb s "" then fallback else s
  | None => fallback
  end.

End Env.

(** ** The transport client (api/client.js) *)

Module Axios.

Record AxiosResponse : Type := { status : Z; data : value }.

(** A rejected request: [response] is present when the server
    answered with a failure status, [code] when the library tagged the
    failure (ECONNREFUSED, ERR_NETWORK, ...). *)
Record AxiosError : Type := {
  response : option AxiosResponse;
  code : option string;
  message : string
}.

(** A request configuration as the interceptors see it: the header
    object and the remaining own properties (url, method, baseURL,
    data, params, apiKey, ...). *)
Record AxiosRequestConfig : Type := {
  headers : gmap string value;
  props : gmap string value
}.

Definition outcome : Type := AxiosError + AxiosResponse.

(** What a [throw] carries in the modelled code: an [Error] of the
    language or of [new Error(message)], of which only the message is
    ever read, or the error of a rejected request. *)
Inductive exn : Type :=
| JsError (message : string)
| LibError (e : AxiosError).

(** The network: whatever answers a request, with a state of its own.
    Every exchange is recorded in [log], oldest first. *)
Record state (W : Type) : Type := {
  world : W;
  log : list (AxiosRequestConfig * outcome)
}.
Arguments world {W} _.
Arguments log {W} _.

(** An [async] computation: it runs on the network state and either
    throws or returns. *)
Definition io (W A : Type) : Type := state W → (exn + A) * state W.

#[export] Instance io_ret {W} : MRet (io W) := λ A a st, (inr a, st).

#[export] Instance io_bind {W} : MBind (io W) := λ A B f m st,
  match m st with
  | (inl e, st') => (inl e, st')
  | (inr a, st') => f a st'
  end.

Definition throw {W A} (e : exn) : io W A := λ st, (inl e, st).

(** [try { body } catch (error) { handler }] *)
Definition try_catch {W A} (body : io W A) (handler : exn → io W A) : io W A :=
  λ st,
    match body st with
    | (inl e, st') => handler e st'
    | (inr a, st') => (inr a, st')
    end.

(** A synchronous step that may throw an [Error]. *)
Definition lift {W A} (r : string + A) : io W A :=
  λ st, (match r with inl message => inl (JsError message) | inr a => inr a end, st).

Definition run {W A} (m : io W A) (w : W) : (exn + A) * state W :=
  m {| world := w; log := [] |}.

(** The request interceptor installed by client.js. *)
Definition request_interceptor (config : AxiosRequestConfig) : AxiosRequestConfig :=
  let apiKey := default VUndefined (props config !! "apiKey") in
  if truthy apiKey then
    {| headers := <["X-API-Key" := apiKey]> (headers config);
       props := delete "apiKey" (props config) |}
  else config.

(** Own properties with a defined value. *)
Definition defined (o : gmap string value) : gmap string value :=
  omap (λ v, match v with VUndefined => None | _ => Some v end) o.

Section Client.
Context {W : Type}.
Variable send : AxiosRequestConfig → W → outcome * W.
Variable env : Env.env.

Definition API_BASE_URL : string :=
  Env.or_default (Env.VITE_API_BASE_URL env) "http://localhost:8000".

(** [axios.create({ baseURL, headers })] *)
Definition defaults : AxiosRequestConfig :=
  {| headers := {[ "Content-Type" := VStr "application/json" ]};
     props := {[ "baseURL" := VStr API_BASE_URL ]} |}.

(** The per-call configuration over the instance defaults. No call
    site of the console passes headers of its own. *)
Definition mergeConfig (call : gmap string value) : AxiosRequestConfig :=
  {| headers := headers defaults;
     props := defined call ∪ defined (props defaults) |}.

(** Hand the configuration to the network and record the exchange. *)
Definition dispatch (config : AxiosRequestConfig) : io W AxiosResponse :=
  λ st,
    let '(o, w') := send config (world st) in
    (match o with
     | inl e => inl (LibError e)
     | inr r => inr r
     end,
     {| world := w'; log := log st ++ [(config, o)] |}).

(** The configuration a call ends up issuing. *)
Definition prepare (call : gmap string value) : AxiosRequestConfig :=
  request_interceptor (mergeConfig call).

Definition request (call : gmap string value) : io W AxiosResponse :=
  dispatch (prepare call).

(** [apiClient.get(url, config)], [apiClient.post(url, body, config)]:
    the verb, the path and the body join the call's configuration. *)
Definition call_config (method url : string) (body : value) (config : gmap string value)
  : gmap string value :=
  <["method" := VStr method]> (<["url" := VStr url]> (<["data" := body]> config)).

Definition issued (method url : string) (body : value) (config : gmap string value)
  : AxiosRequestConfig :=
  prepare (call_config method url body config).

Definition verb (method url : string) (body : value) (config : gmap string value)
  : io W AxiosResponse :=
  dispatch (issued method url body config).

Definition get (url : string) (config : gmap string value) : io W AxiosResponse :=
  verb "get" url VUndefined config.
Definition post (url : string) (body : value) (config : gmap string value)
  : io W AxiosResponse :=
  verb "post" url body config.
Definition patch (url : string) (body : value) (config : gmap string value)
  : io W AxiosResponse :=
  verb "patch" url body config.

End Client.

(** [error.response?.status === n] and [error.code === c], for
    whatever was caught. *)
Definition status_is (error : exn) (n : Z) : bool :=
  match error with
  | LibError {| response := Some r |} => (status r =? n)%Z
  | _ => false
  end.

Definition code_is (error : exn) (c : string) : bool :=
  match error with
  | LibError {| code := Some c' |} => String.eqb c' c
  | _ => false
  end.

End Axios.

(** ** Merchant operations (api/merchants.js) *)

Module Merchants.
Import Axios.

Section Api.
Context {W : Type}.
Variable send : AxiosRequestConfig → W → outcome * W.
Variable env : Env.env.

Definition merchantServiceUrl : string :=
  Env.or_default (Env.VITE_MERCHANT_SERVICE_URL env) "http://localhost:8001".
Definition paymentServiceUrl : string :=
  Env.or_default (Env.VITE_PAYMENT_SERVICE_URL env) "http://localhost:8002".

(** [typeof nameOrData === 'string' ? { name: nameOrData } : nameOrData] *)
Definition merchantData (nameOrData : value) : value :=
  if String.eqb (typeof nameOrData) "string"
  then VObj {[ "name" := nameOrData ]}
  else nameOrData.

Definition createMerchant (nameOrData : value) : io W value :=
  try_catch
    (response ← post send env "/api/v1/merchants" (merchantData nameOrData)
                  {[ "baseURL" := VStr merchantServiceUrl ]};
     mret (data response))
    (λ error,
       if status_is error 404 || code_is error "ECONNREFUSED" then
         response ← post send env "/api/v1/merchants" (merchantData nameOrData)
                      {[ "baseURL" := VStr merchantServiceUrl ]};
         mret (data response)
       else throw error).

Definition getDashboard (apiKey : value) : io W value :=
  try_catch
    (dashboardResponse ← get send env "/api/v1/dashboard"
                           {[ "apiKey" := apiKey; "baseURL" := VStr merchantServiceUrl ]};
     merchantInfo ← get send env "/api/v1/merchants/me"
                      {[ "apiKey" := apiKey; "baseURL" := VStr merchantServiceUrl ]};
     merchantId ← lift (JS.get (data merchantInfo) "id");
     paymentsResponse ← get send env
                          ("/api/v1/payments/by-merchant/" +:+ ToString merchantId)
                          {[ "baseURL" := VStr paymentServiceUrl ]};
     mret (VObj {[ "merchant" := data merchantInfo;
                   "payments" := data paymentsResponse;
                   "dashboardHtml" := data dashboardResponse ]}))
    (λ error, throw error).

Definition getAllMerchants : io W value :=
  try_catch
    (response ← get send env "/api/v1/merchants/all"
                  {[ "baseURL" := VStr merchantServiceUrl ]};
     mret (data response))
    (λ error, throw error).

Definition updateMerchant (apiKey updateData : value) : io W value :=
  try_catch
    (response ← patch send env "/api/v1/merchants/me" updateData
                  {[ "apiKey" := apiKey; "baseURL" := VStr merchantServiceUrl ]};
     mret (data response))
    (λ error, throw error).

End Api.
End Merchants.

(** ** Payment operations (api/payments.js) *)

Module Payments.
Import Axios.

Section Api.
Context {W : Type}.
Variable send : AxiosRequestConfig → W → outcome * W.
Variable env : Env.env.

Definition gatewayUrl : string :=
  Env.or_default (Env.VITE_API_BASE_URL env) "http://localhost:8000".

(** The body posted to [/v1/payments]. *)
Definition payment_body (merchantId amount currency description payment_method : value)
  : value :=
  VObj {[ "merchant_id" := merchantId;
          "amount" := VStr (ToString amount);
          "currency" := currency;
          "description" := description;
          "payment_method" := or_else payment_method (VStr "card") ]}.

Definition createPayment (apiKey paymentData : value) : io W value :=
  try_catch
    (merchantResponse ← get send env "/api/v1/merchants/me"
                          {[ "apiKey" := apiKey;
                             "baseURL" := VStr (Merchants.merchantServiceUrl env) ]};
     merchantId ← lift (JS.get (data merchantResponse) "id");
     amount ← lift (JS.get paymentData "amount");
     currency ← lift (JS.get paymentData "currency");
     description ← lift (JS.get paymentData "description");
     payment_method ← lift (JS.get paymentData "payment_method");
     response ← post send env "/v1/payments"
                  (payment_body merchantId amount currency description payment_method)
                  {[ "apiKey" := apiKey; "baseURL" := VStr gatewayUrl ]};
     mret (data response))
    (λ error, throw error).

Definition getAllPayments (dateFrom dateTo : value) : io W value :=
  try_catch
    (response ← get send env "/api/v1/payments/all"
                  {[ "baseURL" := VStr (Merchants.paymentServiceUrl env);
                     "params" := VObj {[ "date_from" := dateFrom; "date_to" := dateTo ]} ]};
     mret (data response))
    (λ error, throw error).

End Api.
End Payments.

(** ** The payment form's challenge redirect (components/PaymentForm.jsx) *)

Module PaymentForm.

(** [url.startsWith('http') ? url : `${gatewayUrl}${url}`] *)
Definition fullUrl (gatewayUrl next_action_url : string) : string :=
  if String.prefix "http" next_action_url
  then next_action_url
  else gatewayUrl +:+ next_action_url.

(** [v.startsWith] exists on strings only. *)
Definition normalized (gatewayUrl : string) (next_action_url : value) : string + string :=
  match next_action_url with
  | VStr u => inr (fullUrl gatewayUrl u)
  | _ => inl "next_action_url.startsWith is not a function"
  end.

Section Form.
Variable env : Env.env.

Definition gatewayUrl : string :=
  Env.or_default (Env.VITE_API_BASE_URL env) "http://localhost:8000".

(** What [handleSubmit] passes to [window.open] for a created
    payment [result], if anything. *)
Definition opened (result : value) : string + option string :=
  match JS.get result "requires_action" with
  | inl e => inl e
  | inr requires_action =>
      if truthy requires_action then
        match JS.get result "next_action_url" with
        | inl e => inl e
        | inr next_action_url =>
            if truthy next_action_url then
              match normalized gatewayUrl next_action_url with
              | inl e => inl e
              | inr u => inr (Some u)
              end
            else inr None
        end
      else inr None
  end.


End Form.
End PaymentForm.

(** ** The provider switch (components/Providers.jsx) *)

Module Providers.

(** What [fetch] resolves to: [ok] and the outcome of [json()], which
    rejects with an error message when the body is not JSON. *)
Record Response : Type := { ok : bool; json : string + value }.

Record Request : Type := {
  url : string;
  method : string;
  headers : gmap string string;
  body : value
}.

(** The component's state hooks. [error] is [null] or a message. *)
Record state : Type := {
  currentProvider : value;
  availableProviders : value;
  loading : bool;
  error : option string;
  success : bool
}.

Definition setCurrentProvider (v : value) (st : state) : state :=
  {| currentProvider := v; availableProviders := availableProviders st;
     loading := loading st; error := error st; success := success st |}.
Definition setLoading (b : bool) (st : state) : state :=
  {| currentProvider := currentProvider st; availableProviders := availableProviders st;
     loading := b; error := error st; success := success st |}.
Definition setError (e : option string) (st : state) : state :=
  {| currentProvider := currentProvider st; availableProviders := availableProviders st;
     loading := loading st; error := e; success := success st |}.
Definition setSuccess (b : bool) (st : state) : state :=
  {| currentProvider := currentProvider st; availableProviders := availableProviders st;
     loading := loading st; error := error st; success := b |}.

(** [err.message || fallback] *)
Definition message_or (message fallback : string) : string :=
  if String.eqb message "" then fallback else message.

Section Component.
Context {W : Type}.
(** [fetch] rejects with an error message or resolves to a response. *)
Variable fetch : Request → W → (string + Response) * W.
Variable env : Env.env.

Definition paymentServiceUrl : string :=
  Env.or_default (Env.VITE_PAYMENT_SERVICE_URL env) "http://localhost:8002".

Definition switch_request (providerName : value) : Request :=
  {| url := paymentServiceUrl +:+ "/api/v1/provider";
     method := "PUT";
     headers := {[ "Content-Type" := "application/json" ]};
     body := VObj {[ "provider" := providerName ]} |}.

(** The [try] block of [handleProviderChange]: the state it leaves
    and the message of what it threw, if it threw. The timer that
    hides the success banner three seconds later is not modelled. *)
Definition attempt (providerName : value) (st : state) (w : W)
  : (option string * state) * W :=
  let '(r, w') := fetch (switch_request providerName) w in
  (match r with
   | inl msg => (Some msg, st)
   | inr response =>
       if negb (ok response) then
         match json response with
         | inl msg => (Some msg, st)
         | inr errorData =>
             match JS.get errorData "detail" with
             | inl msg => (Some msg, st)
             | inr detail =>
                 (Some (Error_message
                          (or_else detail (VStr "Не удалось изменить провайдер"))), st)
             end
         end
       else
         match json response with
         | inl msg => (Some msg, st)
         | inr data =>
             match JS.get data "current_provider" with
             | inl msg => (Some msg, st)
             | inr current_provider =>
                 (None, setSuccess true (setCurrentProvider current_provider st))
             end
         end
   end, w').

Definition handleProviderChange (providerName : value) (st : state) (w : W)
  : state * W :=
  let st0 := setSuccess false (setError None (setLoading true st)) in
  let '((thrown, st1), w') := attempt providerName st0 w in
  let st2 := match thrown with
             | Some message =>
                 setError (Some (message_or message "Ошибка при изменении провайдера")) st1
             | None => st1
             end in
  (setLoading false st2, w').

End Component.
End Providers.

(** ** Vocabulary of the specification *)

Module Spec.
Import Axios.

(** The creation request of [createMerchant]: a POST of the profile
    to [/api/v1/merchants] at the address the call names. *)
Definition creation_request (env : Env.env) (nameOrData : value) : AxiosRequestConfig :=
  issued env "post" "/api/v1/merchants" (Merchants.merchantData nameOrData)
    {[ "baseURL" := VStr (Merchants.merchantServiceUrl env) ]}.

(** The first attempt "fails with HTTP status 404". *)
Definition not_found (e : AxiosError) : bool :=
  match response e with
  | Some r => (status r =? 404)%Z
  | None => false
  end.

(** The first attempt fails with "a connection-refused error". *)
Definition connection_refused (e : AxiosError) : bool :=
  match code e with
  | Some c => String.eqb c "ECONNREFUSED"
  | None => false
  end.

(** The three requests of [getDashboard]: the rendered dashboard and
    the merchant, both asked of the merchant service with the
    credential, and the payments of a merchant, asked of the payment
    service. *)
Definition dashboard_step (env : Env.env) (apiKey : value) : AxiosRequestConfig :=
  issued env "get" "/api/v1/dashboard" VUndefined
    {[ "apiKey" := apiKey; "baseURL" := VStr (Merchants.merchantServiceUrl env) ]}.

Definition merchant_step (env : Env.env) (apiKey : value) : AxiosRequestConfig :=
  issued env "get" "/api/v1/merchants/me" VUndefined
    {[ "apiKey" := apiKey; "baseURL" := VStr (Merchants.merchantServiceUrl env) ]}.

Definition payments_step (env : Env.env) (merchantId : value) : AxiosRequestConfig :=
  issued env "get" ("/api/v1/payments/by-merchant/" +:+ ToString merchantId) VUndefined
    {[ "baseURL" := VStr (Merchants.paymentServiceUrl env) ]}.

(** The submission of [createPayment]: a POST of the payment body to
    [/v1/payments] at the gateway, with the credential. *)
Definition submit_step (env : Env.env) (apiKey body : value) : AxiosRequestConfig :=
  issued env "post" "/v1/payments" body
    {[ "apiKey" := apiKey; "baseURL" := VStr (Payments.gatewayUrl env) ]}.

(** The field [k] of the body a request carries. *)
Definition body_field (config : AxiosRequestConfig) (k : string) : option value :=
  props config !! "data" ≫= λ body, own body k.

(** The field [k] of the body of the latest request of a log. *)
Definition submitted (l : list (AxiosRequestConfig * outcome)) (k : string) : option value :=
  last l ≫= λ x, body_field x.1 k.

(** What the caller of an API function gets from the outcome of its
    last request: the decoded body, or the error as it was rejected. *)
Definition settled (o : outcome) : exn + value :=
  match o with
  | inl e => inl (LibError e)
  | inr r => inr (data r)
  end.

(** The requests of a log that were answered successfully. *)
Definition successes (l : list (AxiosRequestConfig * outcome)) : nat :=
  length (List.filter (λ x, match x.2 with inr _ => true | inl _ => false end) l).

(** The base address a request goes to. *)
Definition target (config : AxiosRequestConfig) : option value :=
  props config !! "baseURL".


End Spec.

(** ** The digits of a number, in the words of ECMA-262

    Step 5 of Number::toString asks for integers [n], [k] and [s] with
    [k >= 1], [10^(k-1) <= s < 10^k], such that [s * 10^(n-k)] rounds to
    the number and [k] is as small as possible; of several such [s] the
    one whose value is closest to the number, and of two equally close
    the even one. *)

Module Decimal.

(** The digit strings of length [k] that denote the binary64 value
    [m * 2^e]: [k >= 1], [10^(k-1) <= s < 10^k], and [s * 10^(n-k)]
    rounds to the value. *)
Definition denotes (m : positive) (e : Z) (s n k : Z) : Prop :=
  (1 ≤ k)%Z ∧ (10 ^ (k - 1) ≤ s < 10 ^ k)%Z
  ∧ rounds_to m e (inject_Z s * pow10 (n - k)) = true.

(** The choice of ECMA-262: [k] as small as possible; of several [s]
    the one whose value is closest to the number; of two equally close
    the even one. *)
Definition canonical (m : positive) (e : Z) (s n k : Z) : Prop :=
  let x := (inject_Z (Z.pos m) * pow2 e)%Q in
  let off (s n : Z) := Qabs (inject_Z s * pow10 (n - k) - x) in
  denotes m e s n k
  ∧ (∀ s' n' k', denotes m e s' n' k' → (k ≤ k')%Z)
  ∧ (∀ s' n', denotes m e s' n' k →
       (off s n <= off s' n')%Q
       ∧ (off s n == off s' n' → Z.even s' = true → Z.even s = true)).

(** Number::toString as a relation between a number and a text:
    [NaN], zero of either sign and the infinities have their names; any
    other number is the layout of its canonical digits, after a minus
    sign if it is negative. *)
Definition renders (x : float) (text : string) : Prop :=
  match Prim2SF x with
  | S754_nan => text = "NaN"
  | S754_zero _ => text = "0"
  | S754_infinity sign => text = if sign then "-Infinity" else "Infinity"
  | S754_finite sign m e =>
      ∃ s n k, canonical m e s n k
             ∧ text = (if sign then "-" else "") +:+ layout s n k
  end.

End Decimal.

(** ** Sample environments and networks *)

Module Examples.
Import Axios.

(** No variable set: the local-development addresses apply. *)
Definition local : Env.env :=
  {| Env.VITE_API_BASE_URL := None;
     Env.VITE_MERCHANT_SERVICE_URL := None;
     Env.VITE_PAYMENT_SERVICE_URL := None |}.

Definition refused : AxiosError :=
  {| response := None; code := Some "ECONNREFUSED"; message := "connect ECONNREFUSED" |}.

Definition failed (n : Z) (body : value) : AxiosError :=
  {| response := Some {| status := n; data := body |};
     code := Some (if (n <? 500)%Z then "ERR_BAD_REQUEST" else "ERR_BAD_RESPONSE");
     message := "Request failed with status code " +:+ pretty n |}.

Definition answered (n : Z) (body : value) : outcome :=
  inr {| status := n; data := body |}.

(** A network that answers from a script, one outcome per request,
    and refuses connections once the script is used up. *)
Definition scripted (config : AxiosRequestConfig) (w : list outcome)
  : outcome * list outcome :=
  match w with
  | o :: w' => (o, w')
  | [] => (inl refused, [])
  end.

(** A network on which only the gateway of the local setup is up. *)
Definition gateway_only (config : AxiosRequestConfig) (w : unit) : outcome * unit :=
  (match Spec.target config with
   | Some (VStr base) =>
       if String.eqb base "http://localhost:8000"
       then answered 201 (VObj {[ "id" := VStr "m_1"; "api_keys" := VArr [VStr "sk_1"] ]})
       else inl refused
   | _ => inl refused
   end, w).

(** A payment service that rejects every provider switch with a detail
    text, as it does for a key that is not in its registry. *)
Definition rejecting (detail : string) (request : Providers.Request) (w : unit)
  : (string + Providers.Response) * unit :=
  (inr {| Providers.ok := false;
          Providers.json := inr (VObj {[ "detail" := VStr detail ]}) |}, w).

(** The provider page after loading, with [mock_success] active. *)
Definition loaded : Providers.state :=
  {| Providers.currentProvider := VStr "mock_success";
     Providers.availableProviders :=
       VObj {[ "mock_success" := VStr "Always succeeds";
               "mock_failed" := VStr "Always fails";
               "mock_3ds" := VStr "Requires 3-D Secure" ]};
     Providers.loading := false;
     Providers.error := None;
     Providers.success := false |}.

End Examples.

(** ** More of the language: URI encoding, splitting, inherited members

    A string stands for the UTF-8 encoding of the JavaScript string it
    models (well-formed, so without lone surrogates). *)

Module Builtins.

(** The characters [encodeURIComponent] leaves alone: letters, digits
    and [- _ . ! ~ * ' ( )]. *)
Fixpoint occurs (c : Ascii.ascii) (s : string) : bool :=
  match s with
  | EmptyString => false
  | String c' s' => Ascii.eqb c c' || occurs c s'
  end.

Definition unreserved (c : Ascii.ascii) : bool :=
  let n := Ascii.N_of_ascii c in
  ((65 <=? n) && (n <=? 90) || (97 <=? n) && (n <=? 122) || (48 <=? n) && (n <=? 57))%N
  || occurs c "-_.!~*'()".

Definition hex_digit (n : N) : Ascii.ascii :=
  Ascii.ascii_of_N (if (n <? 10)%N then 48 + n else 55 + n).

(** [%XX], the escape of one octet. *)
Definition escape (c : Ascii.ascii) (rest : string) : string :=
  let n := Ascii.N_of_ascii c in
  "%" +:+ String (hex_digit (n / 16)) (String (hex_digit (n mod 16)) rest).

(** [encodeURIComponent(s)]: every octet of the UTF-8 encoding that is
    not an unreserved character is escaped. *)
Fixpoint encodeURIComponent (s : string) : string :=
  match s with
  | EmptyString => EmptyString
  | String c s' =>
      if unreserved c then String c (encodeURIComponent s')
      else escape c (encodeURIComponent s')
  end.

(** [s.split(sep)] for a separator of one character. *)
Fixpoint split (sep : Ascii.ascii) (s : string) : list string :=
  match s with
  | EmptyString => [EmptyString]
  | String c s' =>
      if Ascii.eqb c sep then EmptyString :: split sep s'
      else match split sep s' with
           | piece :: pieces => String c piece :: pieces
           | [] => [String c EmptyString]
           end
  end.

(** [parts.join(sep)] for an array of strings. *)
Fixpoint join (sep : string) (parts : list string) : string :=
  match parts with
  | [] => ""
  | [p] => p
  | p :: ps => p +:+ sep +:+ join sep ps
  end.

(** The names every plain object inherits from [Object.prototype]. *)
Definition Object_prototype : list string :=
  ["constructor"; "hasOwnProperty"; "isPrototypeOf"; "propertyIsEnumerable";
   "toLocaleString"; "toString"; "valueOf"; "__proto__";
   "__defineGetter__"; "__defineSetter__"; "__lookupGetter__"; "__lookupSetter__"].

(** What [o[k]] finds on a plain object: an own property, or a member
    inherited from [Object.prototype] (a function or the prototype,
    truthy in any case), or nothing. *)
Inductive found : Type :=
| Own (v : value)
| Inherited (name : string)
| Missing.

Definition member (o : gmap string value) (k : string) : found :=
  match o !! k with
  | Some v => Own v
  | None => if bool_decide (k ∈ Object_prototype) then Inherited k else Missing
  end.

End Builtins.


(** ** What the pages show of a failure *)

Module Handlers.
Import Axios.

(** [err.response?.data?.detail] *)
Definition response_detail (err : exn) : value :=
  match err with
  | LibError {| response := Some r |} =>
      match JS.get (data r) "detail" with
      | inr detail => detail
      | inl _ => VUndefined
      end
  | _ => VUndefined
  end.

(** [err.message] *)
Definition error_message (err : exn) : string :=
  match err with
  | JsError message => message
  | LibError e => message e
  end.

(** [err.response?.data?.detail || err.message || fallback] *)
Definition error_text (fallback : string) (err : exn) : value :=
  or_else (or_else (response_detail err) (VStr (error_message err))) (VStr fallback).

End Handlers.

(** ** The payment form (components/PaymentForm.jsx) *)

Module PaymentFormPage.
Import Axios Builtins Handlers.

Record state : Type := {
  formData : gmap string value;
  paymentResult : value;
  error : value;
  loading : bool
}.

(** [useState] initial values. *)
Definition initial : state :=
  {| formData := {[ "apiKey" := VStr ""; "amount" := VStr ""; "currency" := VStr "RUB";
                    "description" := VStr ""; "payment_method" := VStr "card" ]};
     paymentResult := VNull;
     error := VNull;
     loading := false |}.

(** [setFormData(prev => ({ ...prev, [name]: value }))] *)
Definition handleChange (name : string) (v : value) (st : state) : state :=
  {| formData := <[name := v]> (formData st);
     paymentResult := paymentResult st;
     error := error st;
     loading := loading st |}.

Definition statusMap : gmap string value :=
  {[ "succeeded" := VStr "status-succeeded";
     "pending" := VStr "status-pending";
     "processing" := VStr "status-processing";
     "failed" := VStr "status-failed";
     "requires_action" := VStr "status-requires_action" ]}.

(** [statusMap[status] || 'status-pending']: a value, or the member of
    [Object.prototype] of the name given. The function is repeated
    verbatim in the merchant panel and on the payments page. *)
Definition getStatusBadgeClass (status : value) : value + string :=
  match member statusMap (ToString status) with
  | Own v => inl (or_else v (VStr "status-pending"))
  | Inherited name => inr name
  | Missing => inl (VStr "status-pending")
  end.

Section Page.
Context {W : Type}.
Variable send : AxiosRequestConfig → W → outcome * W.
Variable env : Env.env.

(** The payment that [handleSubmit] asks for. *)
Definition paymentData (st : state) : value :=
  let field k := default VUndefined (formData st !! k) in
  VObj {[ "amount" := field "amount";
          "currency" := field "currency";
          "description" := field "description";
          "payment_method" := field "payment_method" ]}.

(** [handleSubmit]: the state it leaves and the windows it opened. *)
Definition handleSubmit (st : state) (net : Axios.state W)
  : (state * list string) * Axios.state W :=
  let fallback := "Ошибка при создании платежа" in
  let failed result err :=
    ({| formData := formData st; paymentResult := result;
        error := error_text fallback err; loading := false |}, []) in
  match Payments.createPayment send env (default VUndefined (formData st !! "apiKey"))
          (paymentData st) net with
  | (inl err, net') => (failed VNull err, net')
  | (inr result, net') =>
      (match PaymentForm.opened env result with
       | inl message => failed result (JsError message)
       | inr target =>
           ({| formData := formData st; paymentResult := result;
               error := VNull; loading := false |},
            match target with Some u => [u] | None => [] end)
       end, net')
  end.

End Page.
End PaymentFormPage.

(** ** The merchants page (components/Merchants.jsx) *)

Module MerchantsPage.
Import Axios Builtins Handlers.

Record state : Type := { merchants : value; loading : bool; error : value }.

Section Page.
Context {W : Type}.
Variable send : AxiosRequestConfig → W → outcome * W.
Variable env : Env.env.

Definition loadMerchants (st : state) (net : Axios.state W) : state * Axios.state W :=
  match Merchants.getAllMerchants send env net with
  | (inr result, net') => ({| merchants := result; loading := false; error := VNull |}, net')
  | (inl err, net') =>
      ({| merchants := merchants st; loading := false;
          error := error_text "Ошибка при загрузке мерчантов" err |}, net')
  end.

Definition getDashboardUrl (apiKey : value) : string :=
  Merchants.merchantServiceUrl env +:+ "/api/v1/dashboard?api_key="
  +:+ encodeURIComponent (ToString apiKey).

End Page.
End MerchantsPage.

(** ** The payments page (components/Payments.jsx) *)

Module PaymentsPage.
Import Axios Handlers.

Record state : Type := {
  payments : value;
  loading : bool;
  error : value;
  dateFrom : string;
  dateTo : string
}.

Section Page.
Context {W : Type}.
Variable send : AxiosRequestConfig → W → outcome * W.
Variable env : Env.env.

Definition loadPayments (st : state) (net : Axios.state W) : state * Axios.state W :=
  match Payments.getAllPayments send env (VStr (dateFrom st)) (VStr (dateTo st)) net with
  | (inr result, net') =>
      ({| payments := result; loading := false; error := VNull;
          dateFrom := dateFrom st; dateTo := dateTo st |}, net')
  | (inl err, net') =>
      ({| payments := payments st; loading := false;
          error := error_text "Ошибка при загрузке платежей" err;
          dateFrom := dateFrom st; dateTo := dateTo st |}, net')
  end.

(** The effect that runs when a date changes:
    [if (dateFrom && dateTo) loadPayments()]. *)
Definition datesChanged (st : state) (net : Axios.state W) : state * Axios.state W :=
  if truthy (VStr (dateFrom st)) && truthy (VStr (dateTo st))
  then loadPayments st net
  else (st, net).

Definition getPaymentUrl (paymentId : value) : string :=
  Payments.gatewayUrl env +:+ "/v1/payments/" +:+ ToString paymentId.

End Page.
End PaymentsPage.

(** ** The ports and monitoring pages (components/Ports.jsx, Monitoring.jsx) *)

Module PortsPage.
Import Builtins.

Definition colon : Ascii.ascii := Ascii.ascii_of_N 58.

(** [origin.split(':').slice(0, 2).join(':')], then [`${baseUrl}:${port}`];
    [origin] is [window.location.origin]. *)
Definition getPortUrl (origin : string) (port : value) : string :=
  let baseUrl := join ":" (take 2 (split colon origin)) in
  baseUrl +:+ ":" +:+ ToString port.

End PortsPage.

(** ** The merchant panel (components/MerchantPanel.jsx) *)

Module MerchantPanel.
Import Axios Handlers.

(** A file picked in the logo input: its MIME type and its size in
    bytes. *)
Module File.
Record t : Type := { type : string; size : N }.
End File.

Record state : Type := {
  merchantName : string;
  createdMerchant : value;
  error : value;
  loading : bool;
  dashboardApiKey : value;
  dashboardData : value;
  dashboardError : value;
  dashboardLoading : bool;
  createLogoFile : option File.t;
  createLogoPreview : value;
  createLogoUrl : value
}.

Definition setError (v : value) (st : state) : state :=
  {| merchantName := merchantName st; createdMerchant := createdMerchant st;
     error := v; loading := loading st;
     dashboardApiKey := dashboardApiKey st; dashboardData := dashboardData st;
     dashboardError := dashboardError st; dashboardLoading := dashboardLoading st;
     createLogoFile := createLogoFile st; createLogoPreview := createLogoPreview st;
     createLogoUrl := createLogoUrl st |}.

(** [setCreateLogoFile], [setCreateLogoPreview] and [setCreateLogoUrl]
    at once. *)
Definition setLogo (file : option File.t) (preview url : value) (st : state) : state :=
  {| merchantName := merchantName st; createdMerchant := createdMerchant st;
     error := error st; loading := loading st;
     dashboardApiKey := dashboardApiKey st; dashboardData := dashboardData st;
     dashboardError := dashboardError st; dashboardLoading := dashboardLoading st;
     createLogoFile := file; createLogoPreview := preview; createLogoUrl := url |}.

(** [setDashboardData], [setDashboardError] and [setDashboardLoading]
    at once. *)
Definition setDashboard (d e : value) (l : bool) (st : state) : state :=
  {| merchantName := merchantName st; createdMerchant := createdMerchant st;
     error := error st; loading := loading st;
     dashboardApiKey := dashboardApiKey st; dashboardData := d;
     dashboardError := e; dashboardLoading := l;
     createLogoFile := createLogoFile st; createLogoPreview := createLogoPreview st;
     createLogoUrl := createLogoUrl st |}.

(** [handleCreateLogoFileChange] on [e.target.files[0]]: the state it
    leaves, and the file it hands to [reader.readAsDataURL], if any. *)
Definition handleCreateLogoFileChange (file : option File.t) (st : state)
  : state * option File.t :=
  match file with
  | None => (st, None)
  | Some f =>
      if negb (String.prefix "image/" (File.type f)) then
        (setError (VStr "Пожалуйста, выберите изображение") st, None)
      else if (5 * 1024 * 1024 <? File.size f)%N then
        (setError (VStr "Размер файла не должен превышать 5MB") st, None)
      else
        (setError VNull
           (setLogo (Some f) (createLogoPreview st) (createLogoUrl st) st), Some f)
  end.

(** [reader.onloadend], with [reader.result]. *)
Definition onloadend (result : value) (st : state) : state :=
  setLogo (createLogoFile st) result result st.

(** [handleCreateLogoUrlChange] on [e.target.value]. *)
Definition handleCreateLogoUrlChange (v : string) (st : state) : state :=
  setError VNull (setLogo None VNull (VStr v) st).

Section Page.
Context {W : Type}.
Variable send : AxiosRequestConfig → W → outcome * W.
Variable env : Env.env.

Definition handleGetDashboard (st : state) (net : Axios.state W) : state * Axios.state W :=
  match Merchants.getDashboard send env (dashboardApiKey st) net with
  | (inr result, net') => (setDashboard result VNull false st, net')
  | (inl err, net') =>
      (setDashboard (dashboardData st)
         (error_text "Ошибка при получении дашборда" err) false st, net')
  end.

End Page.
End MerchantPanel.

(** ** Loading the provider registry (components/Providers.jsx) *)

Module ProviderPage.
Import Providers.

Section Page.
Context {W : Type}.
Variable fetch : Request → W → (string + Response) * W.
Variable env : Env.env.

(** [fetch(url)] with no options: a GET without headers or body. *)
Definition load_request : Request :=
  {| url := paymentServiceUrl env +:+ "/api/v1/provider";
     method := "GET"; headers := ∅; body := VUndefined |}.

(** The [try] block of [loadProvider]: the state it leaves and the
    message of what it threw, if it threw. *)
Definition load_attempt (st : state) (w : W) : (option string * state) * W :=
  let '(r, w') := fetch load_request w in
  (match r with
   | inl msg => (Some msg, st)
   | inr response =>
       if negb (ok response) then
         (Some "Не удалось загрузить информацию о провайдере", st)
       else
         match json response with
         | inl msg => (Some msg, st)
         | inr data =>
             match JS.get data "current_provider" with
             | inl msg => (Some msg, st)
             | inr current_provider =>
                 match JS.get data "available_providers" with
                 | inl msg => (Some msg, setCurrentProvider current_provider st)
                 | inr available_providers =>
                     (None,
                      {| currentProvider := current_provider;
                         availableProviders := available_providers;
                         loading := loading st; error := error st;
                         success := success st |})
                 end
             end
         end
   end, w').

Definition loadProvider (st : state) (w : W) : state * W :=
  let '((thrown, st1), w') := load_attempt st w in
  (match thrown with
   | Some message => setError (Some (message_or message "Ошибка при загрузке провайдера")) st1
   | None => st1
   end, w').

End Page.
End ProviderPage.

(** ** More samples *)

Module Samples.

(** The form, filled in for a payment of 100.00 RUB. *)
Definition filled : PaymentFormPage.state :=
  PaymentFormPage.handleChange "description" (VStr "Order #1")
    (PaymentFormPage.handleChange "amount" (VStr "100.00")
       (PaymentFormPage.handleChange "apiKey" (VStr "sk_demo") PaymentFormPage.initial)).

(** The payment service confirms the switch to [mock_3ds]. *)
Definition accepting (request : Providers.Request) (w : unit)
  : (string + Providers.Response) * unit :=
  (inr {| Providers.ok := true;
          Providers.json := inr (VObj {[ "current_provider" := VStr "mock_3ds" ]}) |}, w).

(** The merchant panel with a dashboard on screen. *)
Definition panel : MerchantPanel.state :=
  {| MerchantPanel.merchantName := ""; MerchantPanel.createdMerchant := VNull;
     MerchantPanel.error := VNull; MerchantPanel.loading := false;
     MerchantPanel.dashboardApiKey := VStr "sk_demo";
     MerchantPanel.dashboardData := VObj {[ "payments" := VArr [] ]};
     MerchantPanel.dashboardError := VNull;
     MerchantPanel.dashboardLoading := false;
     MerchantPanel.createLogoFile := None;
     MerchantPanel.createLogoPreview := VNull;
     MerchantPanel.createLogoUrl := VStr "" |}.

End Samples.

(** ** Proof automation *)

(** Closes a case of a handler once the outcome of its request is
    fixed. *)
Ltac settle :=
  intros; simplify_eq/=;
  repeat match goal with
         | H1 : ?x = _, H2 : ?x = _ |- _ => rewrite H1 in H2
         end;
  simplify_eq/=; try congruence; repeat split; eauto.

(** * Properties *)

Import Axios.

(** ** The transport client *)

Section TransportFacts.
Context {W : Type}.
Variable send : AxiosRequestConfig → W → outcome * W.
Variable env : Env.env.

Lemma try_rethrow {A} (m : io W A) st : try_catch m (λ error, throw error) st = m st.
Proof. unfold try_catch, throw. by destruct (m st) as [[e|a] st']. Qed.

End TransportFacts.

Section Interceptor.
Context {W : Type}.
Variable send : AxiosRequestConfig → W → outcome * W.
Variable env : Env.env.

Lemma truthy_defined key : truthy key = true → key ≠ VUndefined.
Proof. by destruct key. Qed.

(** A defined per-call property survives the merge with the defaults. *)
Lemma mergeConfig_lookup (call : gmap string value) k v :
  call !! k = Some v → v ≠ VUndefined → props (mergeConfig env call) !! k = Some v.
Proof.
  intros Hk Hv. unfold mergeConfig, defined; simpl.
  apply lookup_union_Some_l. rewrite lookup_omap, Hk. by destruct v.
Qed.

Lemma request_log (call : gmap string value) st :
  ∃ o, log (request send env call st).2 = log st ++ [(prepare env call, o)].
Proof.
  unfold request, dispatch.
  destruct (send (prepare env call) (world st)) as [o w']. by exists o.
Qed.

(** C8: the request interceptor moves a credential found in the
    [apiKey] field of a configuration into the [X-API-Key] header and
    deletes the field, leaving every other header and property as it
    was; a configuration without an [apiKey] field passes through
    unchanged; and what a call through the client issues is the
    intercepted configuration, so an issued configuration holds the
    credential in the header only. *)
Theorem interceptor_moves_credential (config : AxiosRequestConfig) :
  (∀ key, props config !! "apiKey" = Some key → truthy key = true →
     headers (request_interceptor config) !! "X-API-Key" = Some key
     ∧ (∀ h, h ≠ "X-API-Key" →
          headers (request_interceptor config) !! h = headers config !! h)
     ∧ props (request_interceptor config) !! "apiKey" = None
     ∧ (∀ k, k ≠ "apiKey" →
          props (request_interceptor config) !! k = props config !! k))
  ∧ (props config !! "apiKey" = None → request_interceptor config = config)
  ∧ (∀ (call : gmap string value) key st,
       call !! "apiKey" = Some key → truthy key = true →
       ∃ issued_config o,
         log (request send env call st).2 = log st ++ [(issued_config, o)]
         ∧ headers issued_config !! "X-API-Key" = Some key
         ∧ props issued_config !! "apiKey" = None).
Proof.
  split; [|split].
  - intros key Hkey Htrue. unfold request_interceptor.
    rewrite Hkey; simpl. rewrite Htrue; simpl.
    repeat split.
    + apply lookup_insert_eq.
    + intros h Hh. by apply lookup_insert_ne.
    + apply lookup_delete_eq.
    + intros k Hk. by apply lookup_delete_ne.
  - intros Hnone. unfold request_interceptor. by rewrite Hnone.
  - intros call key st Hcall Htrue.
    destruct (request_log call st) as [o Ho].
    exists (prepare env call), o. split; [done|].
    pose proof (mergeConfig_lookup call "apiKey" key Hcall (truthy_defined _ Htrue)) as Hm.
    unfold prepare, request_interceptor. rewrite Hm; simpl. rewrite Htrue; simpl.
    split; [apply lookup_insert_eq | apply lookup_delete_eq].
Qed.

End Interceptor.

(** The interceptor on the configuration of a dashboard call made with
    the credential [sk_demo]. *)
Lemma interceptor_moves_credential_witness :
  let config := {| headers := {[ "Content-Type" := VStr "application/json" ]};
                   props := {[ "apiKey" := VStr "sk_demo";
                               "url" := VStr "/api/v1/dashboard" ]} |} in
  headers (request_interceptor config) !! "X-API-Key" = Some (VStr "sk_demo")
  ∧ props (request_interceptor config) !! "apiKey" = None.
Proof.
  intros config.
  destruct (interceptor_moves_credential Examples.scripted Examples.local config) as [H _].
  destruct (H (VStr "sk_demo")) as (H1 & _ & H3 & _); [reflexivity | reflexivity |].
  split; [exact H1 | exact H3].
Defined.

(** ** Merchant creation *)

Section CreateMerchant.
Import Merchants Spec.
Context {W : Type}.
Variable send : AxiosRequestConfig → W → outcome * W.
Variable env : Env.env.

Lemma creation_target nameOrData :
  target (creation_request env nameOrData) = Some (VStr (merchantServiceUrl env)).
Proof.
  unfold target, creation_request, issued, prepare, request_interceptor.
  assert (Hnone : props (mergeConfig env (call_config "post" "/api/v1/merchants"
                     (merchantData nameOrData)
                     {[ "baseURL" := VStr (merchantServiceUrl env) ]})) !! "apiKey" = None).
  { unfold mergeConfig, defined, call_config; simpl.
    apply lookup_union_None_2; rewrite lookup_omap; by simplify_map_eq. }
  rewrite Hnone; simpl.
  apply mergeConfig_lookup; [|done]. unfold call_config. by simplify_map_eq.
Qed.

Lemma retry_test (e : AxiosError) :
  status_is (LibError e) 404 || code_is (LibError e) "ECONNREFUSED"
  = not_found e || connection_refused e.
Proof. by destruct e as [[r|] [c|] m]. Qed.

(** What [createMerchant] does, by the outcome of its first request. *)
Lemma createMerchant_run nameOrData w :
  run (createMerchant send env nameOrData) w
  = let c := creation_request env nameOrData in
    match send c w with
    | (inr r1, w1) => (inr (data r1), {| world := w1; log := [(c, inr r1)] |})
    | (inl e, w1) =>
        if not_found e || connection_refused e then
          let '(o, w2) := send c w1 in
          (settled o, {| world := w2; log := [(c, inl e); (c, o)] |})
        else
          (inl (LibError e), {| world := w1; log := [(c, inl e)] |})
    end.
Proof.
  unfold run, createMerchant, try_catch, post, verb, mbind, io_bind, mret, io_ret,
    throw, dispatch.
  fold (creation_request env nameOrData). cbn [world log app]. cbv zeta.
  destruct (send (creation_request env nameOrData) w) as [[e|r1] w1]; [|done].
  rewrite retry_test.
  destruct (not_found e || connection_refused e); [|done]. cbn [world log app].
  by destruct (send (creation_request env nameOrData) w1) as [[e2|r2] w2].
Qed.

(** C4: [createMerchant] repeats the identical creation request once,
    and only after a first attempt that failed with status 404 or with
    a refused connection; any other failure of the first attempt
    reaches the caller as it is, with no second request. An invocation
    issues at most two requests, of which at most one succeeds. *)
Theorem createMerchant_single_fallback (nameOrData : value) (w : W) :
  let c := creation_request env nameOrData in
  let out := run (createMerchant send env nameOrData) w in
  (∀ r1 w1,
     send c w = (inr r1, w1) →
     out = (inr (data r1), {| world := w1; log := [(c, inr r1)] |}))
  ∧ (∀ e w1,
       send c w = (inl e, w1) →
       not_found e || connection_refused e = false →
       out = (inl (LibError e), {| world := w1; log := [(c, inl e)] |}))
  ∧ (∀ e w1 o w2,
       send c w = (inl e, w1) →
       not_found e || connection_refused e = true →
       send c w1 = (o, w2) →
       out = (settled o, {| world := w2; log := [(c, inl e); (c, o)] |}))
  ∧ length (log out.2) ≤ 2
  ∧ successes (log out.2) ≤ 1.
Proof.
  intros c out. subst out. rewrite createMerchant_run. fold c. cbv zeta.
  split; [|split; [|split; [|split]]].
  - intros r1 w1 H. by rewrite H.
  - intros e w1 H Hno. by rewrite H, Hno.
  - intros e w1 o w2 H Hyes H2. by rewrite H, Hyes, H2.
  - destruct (send c w) as [[e|r1] w1]; simpl; [|lia].
    destruct (not_found e || connection_refused e); simpl; [|lia].
    destruct (send c w1) as [o w2]; simpl; lia.
  - unfold successes.
    destruct (send c w) as [[e|r1] w1]; simpl; [|lia].
    destruct (not_found e || connection_refused e); simpl; [|lia].
    destruct (send c w1) as [[e2|r2] w2]; simpl; lia.
Qed.

(** Every request of [createMerchant], the first attempt and the
    repeated one alike, goes to the address of the merchant service. *)
Lemma createMerchant_targets (nameOrData : value) (w : W) :
  Forall (λ x, target x.1 = Some (VStr (merchantServiceUrl env)))
    (log (run (createMerchant send env nameOrData) w).2).
Proof.
  rewrite createMerchant_run. cbv zeta.
  pose proof (creation_target nameOrData) as Ht.
  destruct (send (creation_request env nameOrData) w) as [[e|r1] w1]; simpl.
  - destruct (not_found e || connection_refused e); simpl.
    + destruct (send (creation_request env nameOrData) w1) as [o w2]; simpl.
      by repeat constructor.
    + by repeat constructor.
  - by repeat constructor.
Qed.

End CreateMerchant.

(** The first attempt is answered 404, the repeated one 201. *)
Lemma createMerchant_single_fallback_witness :
  let first := Examples.failed 404 (VObj {[ "detail" := VStr "Not Found" ]}) in
  let second := Examples.answered 201 (VObj {[ "id" := VStr "m_1" ]}) in
  let request := Spec.creation_request Examples.local (VStr "Demo Shop") in
  run (Merchants.createMerchant Examples.scripted Examples.local (VStr "Demo Shop"))
    [inl first; second]
  = (inr (VObj {[ "id" := VStr "m_1" ]}),
     {| world := []; log := [(request, inl first); (request, second)] |}).
Proof.
  intros first second request.
  destruct (createMerchant_single_fallback Examples.scripted Examples.local
              (VStr "Demo Shop") [inl first; second]) as (_ & _ & H & _).
  exact (H first [second] second [] eq_refl eq_refl eq_refl).
Defined.

(** C1, on the local setup with the merchant service down and the
    gateway up: both attempts of [createMerchant] go to the address of
    the merchant service ([http://localhost:8001]), none to the gateway
    ([http://localhost:8000]), which would have answered, and the
    creation fails. *)
Theorem createMerchant_bypasses_gateway :
  let out := run (Merchants.createMerchant Examples.gateway_only Examples.local
                    (VStr "Demo Shop")) tt in
  out.1 = inl (LibError Examples.refused)
  ∧ map (λ x, Spec.target x.1) (log out.2)
    = [Some (VStr "http://localhost:8001"); Some (VStr "http://localhost:8001")]
  ∧ API_BASE_URL Examples.local = "http://localhost:8000"
  ∧ (Examples.gateway_only
       (issued Examples.local "post" "/api/v1/merchants"
          (Merchants.merchantData (VStr "Demo Shop"))
          {[ "baseURL" := VStr (API_BASE_URL Examples.local) ]}) tt).1
    = Examples.answered 201
        (VObj {[ "id" := VStr "m_1"; "api_keys" := VArr [VStr "sk_1"] ]}).
Proof. vm_compute. repeat split. Qed.

(** ** The dashboard *)

Section GetDashboard.
Import Merchants Spec.
Context {W : Type}.
Variable send : AxiosRequestConfig → W → outcome * W.
Variable env : Env.env.

(** A GET made with a credential: the credential travels in the header
    and nowhere else. *)
Lemma issued_get_with_key (url key base : string) :
  key ≠ "" →
  issued env "get" url VUndefined {[ "apiKey" := VStr key; "baseURL" := VStr base ]}
  = {| headers := {[ "Content-Type" := VStr "application/json";
                     "X-API-Key" := VStr key ]};
       props := {[ "baseURL" := VStr base; "method" := VStr "get"; "url" := VStr url ]} |}.
Proof. destruct key as [|c key]; [done|]. intros _. by vm_compute. Qed.

Lemma issued_get_plain (url base : string) :
  issued env "get" url VUndefined {[ "baseURL" := VStr base ]}
  = {| headers := {[ "Content-Type" := VStr "application/json" ]};
       props := {[ "baseURL" := VStr base; "method" := VStr "get"; "url" := VStr url ]} |}.
Proof. by vm_compute. Qed.

(** What [getDashboard] does, step by step. *)
Lemma getDashboard_run (apiKey : value) (w : W) :
  run (getDashboard send env apiKey) w
  = let d := dashboard_step env apiKey in
    let m := merchant_step env apiKey in
    match send d w with
    | (inl e, w1) => (inl (LibError e), {| world := w1; log := [(d, inl e)] |})
    | (inr r1, w1) =>
        match send m w1 with
        | (inl e, w2) =>
            (inl (LibError e), {| world := w2; log := [(d, inr r1); (m, inl e)] |})
        | (inr r2, w2) =>
            match JS.get (data r2) "id" with
            | inl message =>
                (inl (JsError message),
                 {| world := w2; log := [(d, inr r1); (m, inr r2)] |})
            | inr merchantId =>
                let p := payments_step env merchantId in
                match send p w2 with
                | (inl e, w3) =>
                    (inl (LibError e),
                     {| world := w3; log := [(d, inr r1); (m, inr r2); (p, inl e)] |})
                | (inr r3, w3) =>
                    (inr (VObj {[ "merchant" := data r2;
                                  "payments" := data r3;
                                  "dashboardHtml" := data r1 ]}),
                     {| world := w3; log := [(d, inr r1); (m, inr r2); (p, inr r3)] |})
                end
            end
        end
    end.
Proof.
  unfold run, getDashboard. rewrite try_rethrow.
  unfold Axios.get, verb, mbind, io_bind, mret, io_ret, lift, dispatch.
  fold (dashboard_step env apiKey) (merchant_step env apiKey). cbn [world log app].
  destruct (send (dashboard_step env apiKey) w) as [[e|r1] w1]; [done|].
  cbn [world log app].
  destruct (send (merchant_step env apiKey) w1) as [[e|r2] w2]; [done|].
  destruct (JS.get (data r2) "id") as [message|merchantId]; [done|].
  fold (payments_step env merchantId). cbn [world log app].
  by destruct (send (payments_step env merchantId) w2) as [[e|r3] w3].
Qed.

(** C2: when one of the three steps of [getDashboard] fails, the call
    fails with the error of that step as it was rejected, and returns
    no dashboard; a failing payment listing after a successful
    dashboard fetch and merchant resolution gives the caller the
    listing's error and nothing else. The call succeeds only when all
    three steps did. *)
Theorem getDashboard_all_or_nothing (apiKey : value) (w : W) :
  let out := run (getDashboard send env apiKey) w in
  (∀ e w1,
     send (dashboard_step env apiKey) w = (inl e, w1) →
     out.1 = inl (LibError e))
  ∧ (∀ r1 w1 e w2,
       send (dashboard_step env apiKey) w = (inr r1, w1) →
       send (merchant_step env apiKey) w1 = (inl e, w2) →
       out.1 = inl (LibError e))
  ∧ (∀ r1 w1 r2 w2 merchantId e w3,
       send (dashboard_step env apiKey) w = (inr r1, w1) →
       send (merchant_step env apiKey) w1 = (inr r2, w2) →
       JS.get (data r2) "id" = inr merchantId →
       send (payments_step env merchantId) w2 = (inl e, w3) →
       out.1 = inl (LibError e))
  ∧ (∀ view, out.1 = inr view →
       ∃ r1 w1 r2 w2 merchantId r3 w3,
         send (dashboard_step env apiKey) w = (inr r1, w1)
         ∧ send (merchant_step env apiKey) w1 = (inr r2, w2)
         ∧ JS.get (data r2) "id" = inr merchantId
         ∧ send (payments_step env merchantId) w2 = (inr r3, w3)).
Proof.
  intros out. subst out. rewrite getDashboard_run. cbv zeta.
  repeat split.
  - intros e w1 H1. by rewrite H1.
  - intros r1 w1 e w2 H1 H2. by rewrite H1, H2.
  - intros r1 w1 r2 w2 merchantId e w3 H1 H2 Hid H3. by rewrite H1, H2, Hid, H3.
  - intros view.
    destruct (send (dashboard_step env apiKey) w) as [[e|r1] w1] eqn:H1; [done|].
    destruct (send (merchant_step env apiKey) w1) as [[e|r2] w2] eqn:H2; [done|].
    destruct (JS.get (data r2) "id") as [message|merchantId] eqn:Hid; [done|].
    destruct (send (payments_step env merchantId) w2) as [[e|r3] w3] eqn:H3; [done|].
    intros _. exists r1, w1, r2, w2, merchantId, r3, w3. by rewrite H2, Hid, H3.
Qed.

(** C3: [getDashboard] called with a credential makes exactly three
    requests, in this order: a GET of [/api/v1/dashboard] at the
    merchant service with the credential in the [X-API-Key] header, a
    GET of [/api/v1/merchants/me] there with the same credential, and a
    GET of [/api/v1/payments/by-merchant/<id>] at the payment service
    for the [id] of the merchant the second request returned. When all
    three succeed it returns the merchant of the second, the payments of
    the third and the dashboard payload of the first, and nothing
    else. *)
Theorem getDashboard_three_steps (key : string) (w : W)
    r1 w1 r2 w2 merchantId r3 w3 :
  let with_key (url : string) :=
    {| headers := {[ "Content-Type" := VStr "application/json";
                     "X-API-Key" := VStr key ]};
       props := {[ "baseURL" := VStr (merchantServiceUrl env);
                   "method" := VStr "get";
                   "url" := VStr url ]} |} in
  let payments :=
    {| headers := {[ "Content-Type" := VStr "application/json" ]};
       props := {[ "baseURL" := VStr (paymentServiceUrl env);
                   "method" := VStr "get";
                   "url" := VStr ("/api/v1/payments/by-merchant/"
                                  +:+ ToString merchantId) ]} |} in
  key ≠ "" →
  send (with_key "/api/v1/dashboard") w = (inr r1, w1) →
  send (with_key "/api/v1/merchants/me") w1 = (inr r2, w2) →
  JS.get (data r2) "id" = inr merchantId →
  send payments w2 = (inr r3, w3) →
  run (getDashboard send env (VStr key)) w
  = (inr (VObj {[ "merchant" := data r2;
                  "payments" := data r3;
                  "dashboardHtml" := data r1 ]}),
     {| world := w3;
        log := [(with_key "/api/v1/dashboard", inr r1);
                (with_key "/api/v1/merchants/me", inr r2);
                (payments, inr r3)] |}).
Proof.
  intros with_key payments Hkey H1 H2 Hid H3.
  subst with_key payments. cbv beta in *.
  rewrite getDashboard_run. cbv zeta.
  unfold dashboard_step, merchant_step.
  rewrite (issued_get_with_key "/api/v1/dashboard" key _ Hkey).
  rewrite (issued_get_with_key "/api/v1/merchants/me" key _ Hkey).
  rewrite H1, H2, Hid.
  unfold payments_step. rewrite (issued_get_plain _ (paymentServiceUrl env)).
  by rewrite H3.
Qed.

End GetDashboard.

(** The dashboard payload and the merchant arrive, the payment service
    answers 500. *)
Lemma getDashboard_all_or_nothing_witness :
  let listing_error := Examples.failed 500 (VObj {[ "detail" := VStr "database is down" ]}) in
  (run (Merchants.getDashboard Examples.scripted Examples.local (VStr "sk_demo"))
     [Examples.answered 200 (VStr "<html>Demo Shop</html>");
      Examples.answered 200 (VObj {[ "id" := VStr "m_1"; "name" := VStr "Demo Shop" ]});
      inl listing_error]).1
  = inl (LibError listing_error).
Proof.
  intros listing_error.
  destruct (getDashboard_all_or_nothing Examples.scripted Examples.local (VStr "sk_demo")
              [Examples.answered 200 (VStr "<html>Demo Shop</html>");
               Examples.answered 200 (VObj {[ "id" := VStr "m_1"; "name" := VStr "Demo Shop" ]});
               inl listing_error]) as (_ & _ & H & _).
  exact (H _ _ _ _ (VStr "m_1") listing_error [] eq_refl eq_refl eq_refl eq_refl).
Defined.

(** All three services answer. *)
Lemma getDashboard_three_steps_witness :
  ∃ st,
    run (Merchants.getDashboard Examples.scripted Examples.local (VStr "sk_demo"))
      [Examples.answered 200 (VStr "<html>Demo Shop</html>");
       Examples.answered 200 (VObj {[ "id" := VStr "m_1"; "name" := VStr "Demo Shop" ]});
       Examples.answered 200 (VArr [VObj {[ "id" := VStr "p_1" ]}])]
    = (inr (VObj {[ "merchant" := VObj {[ "id" := VStr "m_1"; "name" := VStr "Demo Shop" ]};
                    "payments" := VArr [VObj {[ "id" := VStr "p_1" ]}];
                    "dashboardHtml" := VStr "<html>Demo Shop</html>" ]}), st)
    ∧ map (λ x, (Spec.target x.1, props x.1 !! "url")) (log st)
      = [(Some (VStr "http://localhost:8001"), Some (VStr "/api/v1/dashboard"));
         (Some (VStr "http://localhost:8001"), Some (VStr "/api/v1/merchants/me"));
         (Some (VStr "http://localhost:8002"), Some (VStr "/api/v1/payments/by-merchant/m_1"))].
Proof.
  eexists. split.
  - eapply (getDashboard_three_steps Examples.scripted Examples.local "sk_demo" _
             {| status := 200; data := VStr "<html>Demo Shop</html>" |} _
             {| status := 200;
                data := VObj {[ "id" := VStr "m_1"; "name" := VStr "Demo Shop" ]} |} _
             (VStr "m_1")
             {| status := 200; data := VArr [VObj {[ "id" := VStr "p_1" ]}] |} []);
      [done | reflexivity..].
  - reflexivity.
Defined.

(** ** The challenge URL *)

Section ChallengeUrl.
Import PaymentForm Spec.

Lemma prefix_append (p rest : string) : String.prefix p (p +:+ rest) = true.
Proof.
  induction p as [|a p IH]; simpl; [by destruct rest|].
  by destruct (Ascii.ascii_dec a a).
Qed.

Lemma prefix_split (p u : string) :
  String.prefix p u = true → ∃ rest, u = p +:+ rest.
Proof.
  revert u. induction p as [|a p IH]; intros u; simpl.
  - intros _. by exists u.
  - destruct u as [|b u]; [done|]. simpl.
    destruct (Ascii.ascii_dec a b) as [->|]; [|done].
    intros [rest ->]%IH. by exists rest.
Qed.



(** C9: whether a next-action URL counts as absolute is decided by the
    four characters [http] alone. Every string that begins with them is
    surfaced unchanged, [httpfoo] included; every other string is put
    behind the gateway base address, [ftp://x] included. *)
Theorem fullUrl_literal_prefix (g : string) :
  (∀ rest, fullUrl g ("http" +:+ rest) = "http" +:+ rest)
  ∧ (∀ u, (∀ rest, u ≠ "http" +:+ rest) → fullUrl g u = g +:+ u)
  ∧ fullUrl g "httpfoo" = "httpfoo"
  ∧ fullUrl g "ftp://x" = g +:+ "ftp://x".
Proof.
  split; [|split; [|split]]; try reflexivity.
  - intros rest. unfold fullUrl. by rewrite prefix_append.
  - intros u Hu. unfold fullUrl.
    destruct (String.prefix "http" u) eqn:Hp; [|done].
    apply prefix_split in Hp as [rest ->]. by destruct (Hu rest).
Qed.

End ChallengeUrl.


(** A relative path without a leading [http]. *)
Lemma fullUrl_literal_prefix_witness :
  PaymentForm.fullUrl "http://localhost:8000" "/mock-success"
  = "http://localhost:8000/mock-success".
Proof.
  destruct (fullUrl_literal_prefix "http://localhost:8000") as (_ & H & _).
  apply (H "/mock-success"). intros rest. discriminate.
Defined.

(** ** The decimal rendering of numbers *)

Section NumberRendering.
Import Decimal.

Lemma Qltb_lt (a b : Q) : Qltb a b = true ↔ (a < b)%Q.
Proof.
  unfold Qltb. rewrite negb_true_iff. split.
  - intros H. apply Qnot_le_lt. intros Hle. apply Qle_bool_iff in Hle. congruence.
  - intros H. destruct (Qle_bool b a) eqn:E; [|done].
    apply Qle_bool_iff in E. lra.
Qed.

Lemma pow10_pos (n : Z) : (0 < pow10 n)%Q.
Proof. apply Qpower_0_lt. reflexivity. Qed.

Lemma pow2_pos (n : Z) : (0 < pow2 n)%Q.
Proof. apply Qpower_0_lt. reflexivity. Qed.

Lemma pow10_add (a b : Z) : (pow10 (a + b) == pow10 a * pow10 b)%Q.
Proof. apply Qpower_plus. discriminate. Qed.

Lemma pow2_add (a b : Z) : (pow2 (a + b) == pow2 a * pow2 b)%Q.
Proof. apply Qpower_plus. discriminate. Qed.

Lemma pow10_inject (k : Z) : (0 ≤ k)%Z → (pow10 k == inject_Z (10 ^ k))%Q.
Proof. intros H. symmetry. apply (Zpower_Qpower 10 k H). Qed.

Lemma pow10_le (a b : Z) : (a ≤ b)%Z → (pow10 a <= pow10 b)%Q.
Proof. intros H. apply Qpower_le_compat_l; [done|]. discriminate. Qed.

Lemma pow2_le (a b : Z) : (a ≤ b)%Z → (pow2 a <= pow2 b)%Q.
Proof. intros H. apply Qpower_le_compat_l; [done|]. discriminate. Qed.

Lemma pow10_lt_inv (a b : Z) : (pow10 a < pow10 b)%Q → (a < b)%Z.
Proof.
  intros H. destruct (Z_lt_le_dec a b) as [|Hle]; [done|].
  apply pow10_le in Hle. lra.
Qed.


Lemma inject_pos (m : positive) : (0 < inject_Z (Z.pos m))%Q.
Proof. unfold Qlt. simpl. lia. Qed.

Lemma digits2_pos_size (m : positive) : digits2_pos m = Pos.size m.
Proof. induction m; simpl; congruence. Qed.

(** What [valid_binary] says of a finite binary64 value [m * 2^e]. *)
Lemma binary64_bounds (m : positive) (e : Z) :
  bounded 53 1024 m e = true →
  (Z.pos m < 2 ^ 53)%Z ∧ (-1074 <= e <= 971)%Z ∧ (e = -1074 ∨ 2 ^ 52 ≤ Z.pos m)%Z.
Proof.
  unfold bounded, canonical_mantissa, fexp, SpecFloat.emin.
  rewrite andb_true_iff, Z.eqb_eq, Z.leb_le, digits2_pos_size.
  intros [Hd He].
  pose proof (Pos.size_gt m) as Hgt. pose proof (Pos.size_le m) as Hle.
  apply Pos2Z.pos_lt_pos in Hgt. apply Pos2Z.pos_le_pos in Hle.
  rewrite Pos2Z.inj_pow in Hgt, Hle. rewrite Pos2Z.inj_xO in Hle.
  set (d := Z.pos (Pos.size m)) in *.
  assert (Hd0 : (1 ≤ d)%Z) by (subst d; lia).
  assert (Hd53 : (d ≤ 53)%Z) by lia.
  assert (H2d : (2 ^ d ≤ 2 ^ 53)%Z) by (apply Z.pow_le_mono_r; lia).
  split; [lia|]. split; [lia|].
  destruct (Z.eq_dec e (-1074)%Z) as [|Hne]; [by left|right].
  assert (d = 53)%Z as Hd' by lia. rewrite Hd' in Hle.
  change (2 ^ 53)%Z with (2 * 2 ^ 52)%Z in Hle. lia.
Qed.

Lemma pow2_step (e : Z) :
  (pow2 (e - 1) == 2 * pow2 (e - 2))%Q ∧ (pow2 e == 4 * pow2 (e - 2))%Q.
Proof.
  split.
  - replace (e - 1)%Z with (e - 2 + 1)%Z by lia. rewrite pow2_add.
    change (pow2 1) with (2 # 1)%Q. lra.
  - replace e with (e - 2 + 2)%Z at 1 by lia. rewrite pow2_add.
    change (pow2 2) with ((2 # 1) * (2 # 1))%Q. lra.
Qed.

(** The values that round to a number form an interval. *)
Lemma rounds_to_convex (m : positive) (e : Z) (a b c : Q) :
  rounds_to m e a = true → rounds_to m e b = true →
  (a <= c)%Q → (c <= b)%Q → rounds_to m e c = true.
Proof.
  unfold rounds_to.
  destruct (Z.even (Z.pos m));
    rewrite !andb_true_iff, ?Qle_bool_iff, ?Qltb_lt; lra.
Qed.

(** A value within [x / (2 * 10^16)] of a binary64 number [x] rounds
    to it: the nearest other number is further away than twice that. *)
Lemma rounds_to_near (m : positive) (e : Z) (v : Q) :
  bounded 53 1024 m e = true →
  let x := (inject_Z (Z.pos m) * pow2 e)%Q in
  ((x - v) * 20000000000000000 <= x)%Q →
  ((v - x) * 20000000000000000 <= x)%Q →
  rounds_to m e v = true.
Proof.
  intros Hb x Hlo Hhi. subst x.
  destruct (binary64_bounds m e Hb) as (Hm & He & Hnorm).
  destruct (pow2_step e) as [H1 H2].
  pose proof (pow2_pos (e - 2)) as Hu.
  rewrite Zlt_Qlt in Hm.
  pose proof (inject_pos m) as Hpos.
  unfold rounds_to.
  rewrite H2 in Hlo, Hhi.
  set (M := inject_Z (Z.pos m)) in *. set (u := pow2 (e - 2)) in *.
  assert (HM : (M * u < inject_Z (2 ^ 53) * u)%Q) by nra.
  assert (Hy : (0 < M * u)%Q) by nra.
  change (inject_Z (2 ^ 53)) with (9007199254740992 # 1)%Q in HM.
  assert (Hhi' : (v < inject_Z (2 * Z.pos m + 1) * pow2 (e - 1))%Q).
  { rewrite inject_Z_plus, inject_Z_mult, H1. fold M u.
    change (inject_Z 2) with (2 # 1)%Q. change (inject_Z 1) with (1 # 1)%Q. lra. }
  assert (Hlo' : ((if (Z.pos m =? 2 ^ 52)%Z && (-1074 <? e)%Z
                  then inject_Z (4 * Z.pos m - 1) * pow2 (e - 2)
                  else inject_Z (2 * Z.pos m - 1) * pow2 (e - 1)) < v)%Q).
  { destruct ((Z.pos m =? 2 ^ 52)%Z && (-1074 <? e)%Z) eqn:Hc.
    - apply andb_true_iff in Hc as [Hc _]. apply Z.eqb_eq in Hc.
      assert (HM' : (M == 4503599627370496 # 1)%Q) by (subst M; by rewrite Hc).
      assert (Hy' : (M * u == (4503599627370496 # 1) * u)%Q) by (by rewrite HM').
      replace (4 * Z.pos m - 1)%Z with (4 * Z.pos m + -1)%Z by lia.
      rewrite inject_Z_plus, inject_Z_mult. fold M u.
      change (inject_Z 4) with (4 # 1)%Q. change (inject_Z (-1)) with (-1 # 1)%Q.
      lra.
    - replace (2 * Z.pos m - 1)%Z with (2 * Z.pos m + -1)%Z by lia.
      rewrite inject_Z_plus, inject_Z_mult, H1. fold M u.
      change (inject_Z 2) with (2 # 1)%Q. change (inject_Z (-1)) with (-1 # 1)%Q. lra. }
  destruct (Z.even (Z.pos m));
    rewrite andb_true_iff, ?Qle_bool_iff, ?Qltb_lt; split;
    first [exact Hlo' | exact Hhi' | apply Qlt_le_weak; first [exact Hlo' | exact Hhi']].
Qed.

(** A number rounds to itself. *)
Lemma rounds_to_self (m : positive) (e : Z) :
  bounded 53 1024 m e = true →
  rounds_to m e (inject_Z (Z.pos m) * pow2 e) = true.
Proof.
  intros Hb. apply rounds_to_near; [done| |].
  - pose proof (pow2_pos e). pose proof (inject_pos m). nra.
  - pose proof (pow2_pos e). pose proof (inject_pos m). nra.
Qed.

Lemma in_range_iff (k s n : Z) :
  in_range k (s, n) = true ↔ (10 ^ (k - 1) ≤ s < 10 ^ k)%Z.
Proof. unfold in_range; simpl. by rewrite andb_true_iff, Z.leb_le, Z.ltb_lt. Qed.

Lemma digit_bounds (k s : Z) :
  (1 ≤ k)%Z → (10 ^ (k - 1) ≤ s < 10 ^ k)%Z →
  (pow10 (k - 1) <= inject_Z s)%Q ∧ (inject_Z s < pow10 k)%Q.
Proof.
  intros Hk [H1 H2]. rewrite !pow10_inject by lia.
  by rewrite <- Zle_Qle, <- Zlt_Qlt.
Qed.

Lemma pow10_split (n k : Z) :
  (pow10 (n - 1) == pow10 (k - 1) * pow10 (n - k))%Q
  ∧ (pow10 n == pow10 k * pow10 (n - k))%Q.
Proof.
  split; rewrite <- pow10_add.
  - by replace (k - 1 + (n - k))%Z with (n - 1)%Z by lia.
  - by replace (k + (n - k))%Z with n by lia.
Qed.

(** A string of [k] digits read with exponent [n] lies in the decade
    below [10^n]. *)
Lemma value_bounds (k s n : Z) :
  (1 ≤ k)%Z → (10 ^ (k - 1) ≤ s < 10 ^ k)%Z →
  (pow10 (n - 1) <= inject_Z s * pow10 (n - k))%Q
  ∧ (inject_Z s * pow10 (n - k) < pow10 n)%Q.
Proof.
  intros Hk Hs. destruct (digit_bounds k s Hk Hs) as [H1 H2].
  destruct (pow10_split n k) as [E1 E2]. pose proof (pow10_pos (n - k)) as HP.
  rewrite E1, E2. split; nra.
Qed.

(** ... and is the value of no other string of [k] digits. *)
Lemma digits_unique (k s n s' n' : Z) :
  (1 ≤ k)%Z → (10 ^ (k - 1) ≤ s < 10 ^ k)%Z → (10 ^ (k - 1) ≤ s' < 10 ^ k)%Z →
  (inject_Z s * pow10 (n - k) == inject_Z s' * pow10 (n' - k))%Q →
  (s, n) = (s', n').
Proof.
  intros Hk Hs Hs' Heq.
  destruct (value_bounds k s n Hk Hs) as [H1 H2].
  destruct (value_bounds k s' n' Hk Hs') as [H1' H2'].
  assert (n - 1 < n')%Z by (apply pow10_lt_inv; lra).
  assert (n' - 1 < n)%Z by (apply pow10_lt_inv; lra).
  assert (n' = n) as -> by lia.
  apply Qmult_inj_r in Heq.
  - apply (proj1 (inject_Z_injective s s')) in Heq. by subst.
  - pose proof (pow10_pos (n - k)). lra.
Qed.

Lemma decade_spec (fuel : nat) (x : Q) (n0 : Z) :
  (pow10 (n0 - 1) <= x)%Q → (x < pow10 (n0 + Z.of_nat fuel))%Q →
  (pow10 (decade fuel x n0 - 1) <= x)%Q ∧ (x < pow10 (decade fuel x n0))%Q.
Proof.
  revert n0. induction fuel as [|fuel IH]; intros n0 H1 H2; simpl decade.
  - by rewrite Z.add_0_r in H2.
  - destruct (Qltb x (pow10 n0)) eqn:E.
    + by apply Qltb_lt in E.
    + apply IH.
      * replace (n0 + 1 - 1)%Z with n0 by lia.
        unfold Qltb in E. apply negb_false_iff, Qle_bool_iff in E. exact E.
      * by replace (n0 + 1 + Z.of_nat fuel)%Z with (n0 + Z.of_nat (S fuel))%Z by lia.
Qed.

(** Every finite binary64 value lies between [10^-325] and [10^316],
    so the search for its decade finds it. *)
Lemma binary64_decade (m : positive) (e : Z) :
  bounded 53 1024 m e = true →
  let x := (inject_Z (Z.pos m) * pow2 e)%Q in
  let nx := decade 640 x (-324) in
  (0 < x)%Q ∧ (pow10 (nx - 1) <= x)%Q ∧ (x < pow10 nx)%Q.
Proof.
  intros Hb x nx.
  destruct (binary64_bounds m e Hb) as (Hm & He & _).
  pose proof (inject_pos m) as Hpos. pose proof (pow2_pos e) as Hu.
  assert (H1 : (1 <= inject_Z (Z.pos m))%Q).
  { change 1%Q with (inject_Z 1). rewrite <- Zle_Qle. lia. }
  rewrite Zlt_Qlt in Hm.
  assert (Hlo : (pow2 (-1074) <= pow2 e)%Q) by (apply pow2_le; lia).
  assert (Hhi : (pow2 e <= pow2 971)%Q) by (apply pow2_le; lia).
  assert (Clo : (pow10 (-325) <= pow2 (-1074))%Q) by (apply Qle_bool_iff; by vm_compute).
  assert (Chi : (inject_Z (2 ^ 53) * pow2 971 < pow10 (-324 + Z.of_nat 640))%Q)
    by (apply Qltb_lt; by vm_compute).
  split; [subst x; nra|].
  apply decade_spec; subst x.
  - change (-324 - 1)%Z with (-325)%Z. nra.
  - nra.
Qed.

Lemma quotient_bounds (x : Q) (nx k : Z) :
  (pow10 (nx - 1) <= x)%Q → (x < pow10 nx)%Q →
  let q := (x / pow10 (nx - k))%Q in
  (q * pow10 (nx - k) == x)%Q ∧ (pow10 (k - 1) <= q)%Q ∧ (q < pow10 k)%Q.
Proof.
  intros H1 H2 q. pose proof (pow10_pos (nx - k)) as HP.
  destruct (pow10_split nx k) as [E1 E2].
  assert (Hq : (q * pow10 (nx - k) == x)%Q) by (subst q; field; lra).
  rewrite E1 in H1. rewrite E2 in H2. split; [done|]. split; nra.
Qed.

Lemma floor_digits (q : Q) (k : Z) :
  (1 ≤ k)%Z → (pow10 (k - 1) <= q)%Q → (q < pow10 k)%Q →
  (10 ^ (k - 1) ≤ Qfloor q < 10 ^ k)%Z.
Proof.
  intros Hk H1 H2. rewrite pow10_inject in H1, H2 by lia. split.
  - rewrite <- (Qfloor_Z (10 ^ (k - 1))). by apply Qfloor_resp_le.
  - rewrite Zlt_Qlt. pose proof (Qfloor_le q). lra.
Qed.

Lemma ceiling_digits (q : Q) (k : Z) :
  (1 ≤ k)%Z → (pow10 (k - 1) <= q)%Q → (q < pow10 k)%Q →
  (10 ^ (k - 1) ≤ Qceiling q)%Z ∧ (Qceiling q ≤ 10 ^ k)%Z.
Proof.
  intros Hk H1 H2. rewrite pow10_inject in H1, H2 by lia. split.
  - rewrite Zle_Qle. pose proof (Qle_ceiling q). lra.
  - rewrite <- (Qceiling_Z (10 ^ k)). apply Qceiling_resp_le. lra.
Qed.

Lemma off_below (a b x : Q) :
  (a <= b)%Q → (b <= x)%Q →
  (Qabs (b - x) <= Qabs (a - x))%Q ∧ (Qabs (b - x) == Qabs (a - x) → b == a)%Q.
Proof.
  intros H1 H2. rewrite (Qabs_neg (b - x)), (Qabs_neg (a - x)) by lra.
  split; [lra|]. intros H. lra.
Qed.

Lemma off_above (a b x : Q) :
  (x <= b)%Q → (b <= a)%Q →
  (Qabs (b - x) <= Qabs (a - x))%Q ∧ (Qabs (b - x) == Qabs (a - x) → b == a)%Q.
Proof.
  intros H1 H2. rewrite (Qabs_pos (b - x)), (Qabs_pos (a - x)) by lra.
  split; [lra|]. intros H. lra.
Qed.


Lemma Qltb_ge (a b : Q) : Qltb a b = false ↔ (b <= a)%Q.
Proof. unfold Qltb. by rewrite negb_false_iff, Qle_bool_iff. Qed.

(** Whatever string of [k] digits denotes the number, one of the four
    candidates of that length denotes it too and is at least as close;
    if it is exactly as close, it is that string. *)
Lemma candidate_between (m : positive) (e nx k s' n' : Z) :
  let x := (inject_Z (Z.pos m) * pow2 e)%Q in
  (pow10 (nx - 1) <= x)%Q → (x < pow10 nx)%Q →
  rounds_to m e x = true →
  denotes m e s' n' k →
  ∃ c, In c (candidates x k nx ++ candidates x k (nx + 1))
     ∧ in_range k c = true
     ∧ rounds_to m e (inject_Z c.1 * pow10 (c.2 - k)) = true
     ∧ (distance x k c <= distance x k (s', n'))%Q
     ∧ (distance x k c == distance x k (s', n') → c = (s', n')).
Proof.
  intros x Hx1 Hx2 Hself (Hk & Hs' & Hr').
  destruct (value_bounds k s' n' Hk Hs') as [Hv1 Hv2].
  destruct (quotient_bounds x nx k Hx1 Hx2) as (Hq & Hq1 & Hq2).
  pose proof (pow10_pos (nx - k)) as HP.
  destruct (pow10_split nx k) as [E1 E2].
  unfold distance; cbn [fst snd].
  set (v' := (inject_Z s' * pow10 (n' - k))%Q) in *.
  set (q := (x / pow10 (nx - k))%Q) in *.
  assert (Hsame : n' = nx → (v' == inject_Z s' * pow10 (nx - k))%Q)
    by (intros ->; reflexivity).
  destruct (Qlt_le_dec x v') as [Hgt | Hle].
  - destruct (ceiling_digits q k Hk Hq1 Hq2) as [Hc1 Hc2].
    pose proof (Qle_ceiling q) as Hcq. pose proof (Qceiling_lt q) as Hcq'.
    assert (Hn : (nx ≤ n')%Z)
      by (enough (nx - 1 < n')%Z by lia; apply pow10_lt_inv; lra).
    assert (Hup : n' = nx → (Qceiling q ≤ s')%Z).
    { intros Hn'. apply Hsame in Hn'.
      rewrite <- (Qceiling_Z s'). apply Qceiling_resp_le. nra. }
    assert (Hfar : n' ≠ nx → (pow10 nx <= v')%Q).
    { intros Hne. assert (pow10 nx <= pow10 (n' - 1))%Q by (apply pow10_le; lia). lra. }
    destruct (Z_lt_le_dec (Qceiling q) (10 ^ k)) as [Hin | Hout].
    + assert (Habove : (x <= inject_Z (Qceiling q) * pow10 (nx - k))%Q) by nra.
      assert (Hbelow : (inject_Z (Qceiling q) * pow10 (nx - k) <= v')%Q).
      { destruct (Z.eq_dec n' nx) as [Hn'|Hne].
        - rewrite (Hsame Hn'). apply Hup in Hn'. rewrite Zle_Qle in Hn'. nra.
        - apply Hfar in Hne.
          destruct (digit_bounds k (Qceiling q) Hk (conj Hc1 Hin)) as [_ Hd]. nra. }
      destruct (off_above v' _ x Habove Hbelow) as [Hoff Htie].
      exists (Qceiling q, nx). cbn [fst snd]. split_and!.
      * apply in_or_app. left. right. by left.
      * by apply in_range_iff.
      * apply (rounds_to_convex m e x v'); first [done | lra].
      * exact Hoff.
      * intros H. apply (digits_unique k); [done..|]. by apply Htie.
    + assert (HC : Qceiling q = (10 ^ k)%Z) by lia.
      assert (Hne : n' ≠ nx) by (intros Hn'; apply Hup in Hn'; lia).
      apply Hfar in Hne.
      set (q' := (x / pow10 (nx + 1 - k))%Q).
      assert (Hten : (pow10 k == 10 * pow10 (k - 1))%Q).
      { replace k with (1 + (k - 1))%Z at 1 by lia. by rewrite pow10_add. }
      assert (Hq' : (q' * 10 == q)%Q).
      { subst q' q. replace (nx + 1 - k)%Z with (1 + (nx - k))%Z by lia.
        rewrite pow10_add. change (pow10 1) with (10 # 1)%Q. field. lra. }
      assert (Hceil : Qceiling q' = (10 ^ (k - 1))%Z).
      { pose proof (Qle_ceiling q') as Hc'.
        rewrite HC in Hcq'.
        replace (10 ^ k - 1)%Z with (10 ^ k + -1)%Z in Hcq' by lia.
        rewrite inject_Z_plus, <- pow10_inject, Hten in Hcq' by lia.
        change (inject_Z (-1)) with (-1 # 1)%Q in Hcq'.
        apply Z.le_antisymm.
        - rewrite <- (Qceiling_Z (10 ^ (k - 1))). apply Qceiling_resp_le.
          rewrite <- pow10_inject by lia. lra.
        - enough (10 ^ (k - 1) + -1 < Qceiling q')%Z by lia.
          rewrite Zlt_Qlt, inject_Z_plus, <- pow10_inject by lia.
          change (inject_Z (-1)) with (-1 # 1)%Q. lra. }
      assert (Hval : (inject_Z (Qceiling q') * pow10 (nx + 1 - k) == pow10 nx)%Q).
      { rewrite Hceil, <- pow10_inject, <- pow10_add by lia.
        by replace (k - 1 + (nx + 1 - k))%Z with nx by lia. }
      assert (Habove : (x <= inject_Z (Qceiling q') * pow10 (nx + 1 - k))%Q) by lra.
      assert (Hbelow : (inject_Z (Qceiling q') * pow10 (nx + 1 - k) <= v')%Q) by lra.
      destruct (off_above v' _ x Habove Hbelow) as [Hoff Htie].
      exists (Qceiling q', (nx + 1)%Z). cbn [fst snd]. split_and!.
      * apply in_or_app. right. right. by left.
      * rewrite Hceil. apply in_range_iff. split; [lia|].
        apply Z.pow_lt_mono_r; lia.
      * apply (rounds_to_convex m e x v'); first [done | lra].
      * exact Hoff.
      * intros H. apply (digits_unique k); [done| |done|by apply Htie].
        rewrite Hceil. split; [lia|]. apply Z.pow_lt_mono_r; lia.
  - destruct (floor_digits q k Hk Hq1 Hq2) as [Hf1 Hf2].
    pose proof (Qfloor_le q) as Hfq.
    assert (Hn : (n' ≤ nx)%Z)
      by (enough (n' - 1 < nx)%Z by lia; apply pow10_lt_inv; lra).
    assert (Habove : (inject_Z (Qfloor q) * pow10 (nx - k) <= x)%Q) by nra.
    assert (Hbelow : (v' <= inject_Z (Qfloor q) * pow10 (nx - k))%Q).
    { destruct (Z.eq_dec n' nx) as [Hn'|Hne].
      - rewrite (Hsame Hn').
        assert (s' ≤ Qfloor q)%Z as Hs.
        { rewrite <- (Qfloor_Z s'). apply Qfloor_resp_le.
          rewrite (Hsame Hn') in Hle. nra. }
        rewrite Zle_Qle in Hs. nra.
      - assert (pow10 n' <= pow10 (nx - 1))%Q by (apply pow10_le; lia).
        destruct (digit_bounds k (Qfloor q) Hk (conj Hf1 Hf2)) as [Hd _]. nra. }
    destruct (off_below v' _ x Hbelow Habove) as [Hoff Htie].
    exists (Qfloor q, nx). cbn [fst snd]. split_and!.
    + apply in_or_app. left. by left.
    + by apply in_range_iff.
    + apply (rounds_to_convex m e v' x); first [done | lra].
    + exact Hoff.
    + intros H. apply (digits_unique k); [done..|]. by apply Htie.
Qed.

(** [closest] picks a member of the list that no other member beats:
    none is closer, and if an even one is as close, the pick is even. *)
Lemma closest_spec (x : Q) (k : Z) (cs : list (Z * Z)) (r : Z * Z) :
  closest x k cs = Some r →
  In r cs
  ∧ ∀ c, In c cs →
      (distance x k r <= distance x k c)%Q
      ∧ (distance x k r == distance x k c → Z.even c.1 = true → Z.even r.1 = true).
Proof.
  destruct cs as [|c0 cs]; [done|]. cbn [closest]. intros [= <-].
  induction cs as [|a cs IH]; cbn [foldr].
  - split; [by left|]. intros c [<-|[]]. split; [lra|done].
  - destruct IH as [Hin Hmin]. set (r := foldr (closer x k) c0 cs) in *.
    assert (Hin' : In r (c0 :: a :: cs)) by (destruct Hin; [by left|by right; right]).
    assert (Hmin' : ∀ c, In c (c0 :: a :: cs) → c = a ∨ In c (c0 :: cs))
      by (intros c [?|[?|?]]; [right; by left|by left|right; by right]).
    unfold closer.
    destruct (Qltb (distance x k r) (distance x k a)) eqn:E1.
    { apply Qltb_lt in E1. split; [done|].
      intros c [->|Hc]%Hmin'; [split; [lra|intros H; lra]|by apply Hmin]. }
    apply Qltb_ge in E1.
    destruct (Qltb (distance x k a) (distance x k r)) eqn:E2.
    { apply Qltb_lt in E2. split; [right; by left|].
      intros c [->|Hc]%Hmin'; [split; [lra|done]|].
      destruct (Hmin c Hc) as [H1 H2]. split; [lra|intros H; lra]. }
    apply Qltb_ge in E2.
    destruct (Z.even a.1) eqn:Ev.
    { split; [right; by left|].
      intros c [->|Hc]%Hmin'; [split; [lra|done]|].
      destruct (Hmin c Hc) as [H1 H2]. split; [lra|done]. }
    split; [done|].
    intros c [->|Hc]%Hmin'; [split; [lra|congruence]|by apply Hmin].
Qed.

Lemma digits_some (m : positive) (e nx k s n : Z) :
  let x := (inject_Z (Z.pos m) * pow2 e)%Q in
  digits m e nx k = Some (s, n) →
  in_range k (s, n) = true
  ∧ rounds_to m e (inject_Z s * pow10 (n - k)) = true
  ∧ ∀ c, In c (candidates x k nx ++ candidates x k (nx + 1)) →
      in_range k c = true → rounds_to m e (inject_Z c.1 * pow10 (c.2 - k)) = true →
      (distance x k (s, n) <= distance x k c)%Q
      ∧ (distance x k (s, n) == distance x k c → Z.even c.1 = true → Z.even s = true).
Proof.
  intros x H. unfold digits in H. apply closest_spec in H as [Hin Hmin].
  apply filter_In in Hin as [_ [Hr Hv]%andb_true_iff]. split_and!; [done..|].
  intros c Hc Hr' Hv'. apply Hmin, filter_In. split; [done|].
  by rewrite Hr', Hv'.
Qed.

Lemma digits_none (m : positive) (e nx k : Z) (c : Z * Z) :
  let x := (inject_Z (Z.pos m) * pow2 e)%Q in
  digits m e nx k = None →
  In c (candidates x k nx ++ candidates x k (nx + 1)) →
  in_range k c = true → rounds_to m e (inject_Z c.1 * pow10 (c.2 - k)) = true →
  False.
Proof.
  intros x H Hc Hr Hv. unfold digits in H.
  assert (Hin : In c (List.filter
                        (λ c, in_range k c
                              && rounds_to m e (inject_Z c.1 * pow10 (c.2 - k)))
                        (candidates x k nx ++ candidates x k (nx + 1)))).
  { apply filter_In. split; [done|]. by rewrite Hr, Hv. }
  fold x in H. destruct (List.filter _ _); [done|discriminate].
Qed.

(** The search returns the first length, from [k0] on, at which some
    candidate denotes the number. *)
Lemma shortest_spec (fuel : nat) (m : positive) (e nx k0 : Z) :
  digits m e nx (k0 + Z.of_nat fuel) ≠ None →
  ∃ s n k, shortest fuel m e nx k0 = (s, n, k)
         ∧ (k0 ≤ k)%Z
         ∧ digits m e nx k = Some (s, n)
         ∧ ∀ k', (k0 ≤ k' < k)%Z → digits m e nx k' = None.
Proof.
  revert k0. induction fuel as [|fuel IH]; intros k0 H; cbn [shortest].
  - rewrite Z.add_0_r in H.
    destruct (digits m e nx k0) as [[s n]|] eqn:E; [|done].
    exists s, n, k0. split_and!; [done|lia|done|lia].
  - destruct (digits m e nx k0) as [[s n]|] eqn:E.
    + exists s, n, k0. split_and!; [done|lia|done|lia].
    + destruct (IH (k0 + 1)%Z) as (s & n & k & Hs & Hk & Hd & Hnone).
      { by replace (k0 + 1 + Z.of_nat fuel)%Z with (k0 + Z.of_nat (S fuel))%Z by lia. }
      exists s, n, k. split_and!; [done|lia|done|].
      intros k' Hk'. destruct (Z.eq_dec k' k0) as [->|]; [done|]. apply Hnone. lia.
Qed.

(** Seventeen digits denote every binary64 number: the decimals of
    that length lie closer together than the numbers do. *)
Lemma seventeen_digits (m : positive) (e nx : Z) :
  bounded 53 1024 m e = true →
  let x := (inject_Z (Z.pos m) * pow2 e)%Q in
  (pow10 (nx - 1) <= x)%Q → (x < pow10 nx)%Q →
  ∃ s n, denotes m e s n 17.
Proof.
  intros Hb x Hx1 Hx2.
  destruct (quotient_bounds x nx 17 Hx1 Hx2) as (Hq & Hq1 & Hq2).
  pose proof (pow10_pos (nx - 17)) as HP.
  destruct (pow10_split nx 17) as [E1 E2].
  set (q := (x / pow10 (nx - 17))%Q) in *.
  assert (E16 : (pow10 (17 - 1) == 10000000000000000 # 1)%Q) by by vm_compute.
  assert (E17 : (pow10 17 == 100000000000000000 # 1)%Q) by by vm_compute.
  destruct (floor_digits q 17 ltac:(lia) Hq1 Hq2) as [Hf1 Hf2].
  destruct (ceiling_digits q 17 ltac:(lia) Hq1 Hq2) as [Hc1 Hc2].
  pose proof (Qfloor_le q) as Hfq. pose proof (Qlt_floor q) as Hfq'.
  pose proof (Qle_ceiling q) as Hcq. pose proof (Qceiling_lt q) as Hcq'.
  rewrite E16 in E1.
  destruct (Qlt_le_dec (1 # 2) (q - inject_Z (Qfloor q))) as [Hhigh | Hlow].
  - assert (Hcf : (Qceiling q ≤ Qfloor q + 1)%Z).
    { enough (Qceiling q - 1 < Qfloor q + 1)%Z by lia. rewrite Zlt_Qlt. lra. }
    rewrite Zle_Qle, inject_Z_plus in Hcf. change (inject_Z 1) with (1 # 1)%Q in Hcf.
    destruct (Z_lt_le_dec (Qceiling q) (10 ^ 17)) as [Hin | Hout].
    + exists (Qceiling q), nx. split_and!; [lia|lia|lia|].
      apply rounds_to_near; [done|fold x; nra|fold x; nra].
    + assert (HC : (inject_Z (Qceiling q) == 100000000000000000 # 1)%Q).
      { assert (Qceiling q = 10 ^ 17)%Z as -> by lia. by vm_compute. }
      exists (10 ^ 16)%Z, (nx + 1)%Z. split_and!; [lia|lia|lia|].
      assert (Hval : (inject_Z (10 ^ 16) * pow10 (nx + 1 - 17)
                      == (100000000000000000 # 1) * pow10 (nx - 17))%Q).
      { replace (nx + 1 - 17)%Z with (1 + (nx - 17))%Z by lia. rewrite pow10_add.
        change (pow10 1) with (10 # 1)%Q.
        change (inject_Z (10 ^ 16)) with (10000000000000000 # 1)%Q. ring. }
      apply rounds_to_near; [done|fold x; rewrite Hval; nra|fold x; rewrite Hval; nra].
  - exists (Qfloor q), nx. split_and!; [lia|lia|lia|].
    apply rounds_to_near; [done|fold x; nra|fold x; nra].
Qed.

(** The digits that [shortest] returns for a binary64 number are the
    ones ECMA-262 prescribes. *)
Lemma shortest_canonical (m : positive) (e : Z) :
  bounded 53 1024 m e = true →
  let x := (inject_Z (Z.pos m) * pow2 e)%Q in
  ∃ s n k, shortest 16 m e (decade 640 x (-324)) 1 = (s, n, k)
         ∧ canonical m e s n k ∧ (k ≤ 17)%Z.
Proof.
  intros Hb x.
  destruct (binary64_decade m e Hb) as (Hpos & Hx1 & Hx2). fold x in Hpos, Hx1, Hx2.
  set (nx := decade 640 x (-324)) in *.
  pose proof (rounds_to_self m e Hb) as Hself. fold x in Hself.
  assert (Hcand : ∀ s' n' k', denotes m e s' n' k' → digits m e nx k' ≠ None).
  { intros s' n' k' Hd Hnone.
    destruct (candidate_between m e nx k' s' n' Hx1 Hx2 Hself Hd) as (c & Hc & Hr & Hv & _).
    by apply (digits_none m e nx k' c). }
  destruct (seventeen_digits m e nx Hb Hx1 Hx2) as (s17 & n17 & H17).
  destruct (shortest_spec 16 m e nx 1) as (s & n & k & Hs & Hk & Hd & Hnone).
  { by apply (Hcand s17 n17). }
  exists s, n, k. split; [done|].
  destruct (digits_some m e nx k s n Hd) as (Hr & Hv & Hmin). fold x in Hmin.
  apply in_range_iff in Hr.
  assert (Hle : (k ≤ 17)%Z).
  { destruct (Z_le_gt_dec k 17) as [|Hgt]; [done|].
    exfalso. apply (Hcand s17 n17 17%Z H17), Hnone. lia. }
  split; [|done]. split_and!; [done..| |].
  - intros s' n' k' Hd'. destruct (Z_le_gt_dec k k') as [|Hgt]; [done|].
    exfalso. apply (Hcand s' n' k' Hd'), Hnone. destruct Hd' as [? _]. lia.
  - intros s' n' Hd'.
    destruct (candidate_between m e nx k s' n' Hx1 Hx2 Hself Hd')
      as (c & Hc & Hcr & Hcv & Hoff & Htie).
    destruct (Hmin c Hc Hcr Hcv) as [Hbest Heven].
    unfold distance in *; cbn [fst snd] in *. fold x in Hoff, Htie |- *.
    split; [lra|]. intros Heq Hev.
    assert (c = (s', n')) as -> by (apply Htie; lra).
    apply Heven; [lra|done].
Qed.

(** Number::toString lays out the canonical digits of a finite number
    other than zero. *)
Lemma Number_toString_canonical (x : float) (sign : bool) (m : positive) (e : Z) :
  Prim2SF x = S754_finite sign m e →
  ∃ s n k, canonical m e s n k ∧ (k ≤ 17)%Z
         ∧ Number_toString x = (if sign then "-" else "") +:+ layout s n k.
Proof.
  intros H. pose proof (Prim2SF_valid x) as Hv. rewrite H in Hv.
  destruct (shortest_canonical m e Hv) as (s & n & k & Hs & Hc & Hk).
  exists s, n, k. split_and!; [done..|].
  unfold Number_toString. rewrite H. cbv zeta. by rewrite Hs.
Qed.

(** [Number_toString] renders every number as ECMA-262 prescribes. *)
Lemma Number_toString_renders (x : float) : renders x (Number_toString x).
Proof.
  unfold renders. destruct (Prim2SF x) as [sign| sign| |sign m e] eqn:H.
  - unfold Number_toString. by rewrite H.
  - unfold Number_toString. by rewrite H.
  - unfold Number_toString. by rewrite H.
  - destruct (Number_toString_canonical x sign m e H) as (s & n & k & Hc & _ & Hs).
    by exists s, n, k.
Qed.

(** A value that rounds to a number is no further below it than half
    the distance to the number before it. *)
Lemma rounds_to_width (m : positive) (e : Z) (v : Q) :
  rounds_to m e v = true →
  (inject_Z (Z.pos m) * pow2 e - v <= 2 * pow2 (e - 2))%Q.
Proof.
  unfold rounds_to. destruct (pow2_step e) as [H1 H2].
  pose proof (pow2_pos (e - 2)) as Hu.
  intros H.
  assert (Hlo : ((if (Z.pos m =? 2 ^ 52)%Z && (-1074 <? e)%Z
                  then inject_Z (4 * Z.pos m - 1) * pow2 (e - 2)
                  else inject_Z (2 * Z.pos m - 1) * pow2 (e - 1)) <= v)%Q).
  { destruct (Z.even (Z.pos m)); apply andb_true_iff in H as [H _].
    - by apply Qle_bool_iff in H.
    - apply Qltb_lt in H. by apply Qlt_le_weak. }
  clear H. rewrite H2.
  destruct ((Z.pos m =? 2 ^ 52)%Z && (-1074 <? e)%Z).
  - replace (4 * Z.pos m - 1)%Z with (4 * Z.pos m + -1)%Z in Hlo by lia.
    rewrite inject_Z_plus, inject_Z_mult in Hlo.
    change (inject_Z 4) with (4 # 1)%Q in Hlo.
    change (inject_Z (-1)) with (-1 # 1)%Q in Hlo. lra.
  - replace (2 * Z.pos m - 1)%Z with (2 * Z.pos m + -1)%Z in Hlo by lia.
    rewrite inject_Z_plus, inject_Z_mult, H1 in Hlo.
    change (inject_Z 2) with (2 # 1)%Q in Hlo.
    change (inject_Z (-1)) with (-1 # 1)%Q in Hlo. lra.
Qed.

(** No binary64 number lies half-way between [9 * 10^j] and
    [10 * 10^j] and has both round to it: only the few smallest numbers
    are that far from their neighbours, and none of them is at such a
    place. *)
Lemma no_tie_at_one_digit (m : positive) (e j : Z) :
  bounded 53 1024 m e = true →
  rounds_to m e (9 * pow10 j) = true →
  ¬ (2 * (inject_Z (Z.pos m) * pow2 e) == 19 * pow10 j)%Q.
Proof.
  intros Hb Hr Hx.
  destruct (binary64_bounds m e Hb) as (_ & _ & Hnorm).
  apply rounds_to_width in Hr.
  destruct (pow2_step e) as [_ H2]. rewrite H2 in Hr, Hx.
  pose proof (pow2_pos (e - 2)) as Hu. pose proof (pow10_pos j) as Hj.
  pose proof (inject_pos m) as Hpos.
  assert (Hm : (inject_Z (Z.pos m) < 10)%Q) by nra.
  change 10%Q with (inject_Z 10) in Hm. rewrite <- Zlt_Qlt in Hm.
  assert (He : e = (-1074)%Z) by (destruct Hnorm as [|Hn]; [done|lia]).
  subst e. clear Hnorm Hb.
  assert (H1 : (1 <= inject_Z (Z.pos m))%Q).
  { change 1%Q with (inject_Z 1). rewrite <- Zle_Qle. lia. }
  assert (Clo : (19 * pow10 (-325) < 8 * pow2 (-1074 - 2))%Q)
    by (apply Qltb_lt; by vm_compute).
  assert (Chi : (80 * pow2 (-1074 - 2) < 19 * pow10 (-323))%Q)
    by (apply Qltb_lt; by vm_compute).
  assert (Hj1 : (-325 < j)%Z).
  { apply pow10_lt_inv. set (u := pow2 (-1074 - 2)) in *. nra. }
  assert (Hj2 : (j < -323)%Z).
  { apply pow10_lt_inv. rewrite Zlt_Qlt in Hm. change (inject_Z 10) with 10%Q in Hm.
    set (u := pow2 (-1074 - 2)) in *. nra. }
  assert (j = -324)%Z as -> by lia.
  assert (C1 : (8 * pow2 (-1074 - 2) < 19 * pow10 (-324))%Q)
    by (apply Qltb_lt; by vm_compute).
  assert (C2 : (19 * pow10 (-324) < 16 * pow2 (-1074 - 2))%Q)
    by (apply Qltb_lt; by vm_compute).
  assert (Ha : (inject_Z 1 < inject_Z (Z.pos m))%Q).
  { change (inject_Z 1) with 1%Q. set (u := pow2 (-1074 - 2)) in *. nra. }
  assert (Hb : (inject_Z (Z.pos m) < inject_Z 2)%Q).
  { change (inject_Z 2) with 2%Q. set (u := pow2 (-1074 - 2)) in *. nra. }
  rewrite <- Zlt_Qlt in Ha, Hb. lia.
Qed.

(** Of two canonical strings of the same length none can lie below the
    number while the other lies above it. *)
Lemma no_tie (m : positive) (e s n s' n' k : Z) :
  bounded 53 1024 m e = true →
  let x := (inject_Z (Z.pos m) * pow2 e)%Q in
  canonical m e s n k → canonical m e s' n' k →
  (inject_Z s * pow10 (n - k) < x)%Q → (x < inject_Z s' * pow10 (n' - k))%Q →
  False.
Proof.
  intros Hb x (Hd & _ & Hc) (Hd' & _ & Hc') Hlt Hgt. cbv zeta in Hc, Hc'. fold x in Hc, Hc'.
  destruct (Hc s' n' Hd') as [H1 T1]. destruct (Hc' s n Hd) as [H2 T2].
  pose proof Hd as (Hk & Hs & Hr). pose proof Hd' as (_ & Hs' & Hr').
  destruct (value_bounds k s n Hk Hs) as [Hv1 Hv2].
  destruct (value_bounds k s' n' Hk Hs') as [Hv1' Hv2'].
  destruct (digit_bounds k s Hk Hs) as [_ Hsk].
  pose proof (pow10_pos (n - k)) as HP.
  destruct (pow10_split n k) as [E1 E2].
  set (v := (inject_Z s * pow10 (n - k))%Q) in *.
  set (v' := (inject_Z s' * pow10 (n' - k))%Q) in *.
  assert (A1 : (Qabs (v - x) == x - v)%Q) by (rewrite Qabs_neg; lra).
  assert (A2 : (Qabs (v' - x) == v' - x)%Q) by (rewrite Qabs_pos; lra).
  assert (Heq : (x - v == v' - x)%Q) by lra.
  assert (Ev1 : Z.even s' = true → Z.even s = true) by (apply T1; lra).
  assert (Ev2 : Z.even s = true → Z.even s' = true) by (apply T2; lra).
  clear T1 T2.
  assert (Hn : (n ≤ n')%Z)
    by (enough (n - 1 < n')%Z by lia; apply pow10_lt_inv; lra).
  assert (Hsame : n' = n → (s + 1 ≤ s')%Z).
  { intros ->. enough (s < s')%Z by lia. rewrite Zlt_Qlt. subst v v'. nra. }
  assert (Hfar : n' ≠ n → (pow10 n <= v')%Q).
  { intros Hne. assert (pow10 n <= pow10 (n' - 1))%Q by (apply pow10_le; lia). lra. }
  (* the next string of [k] digits after [s], read with exponent [nt] *)
  assert (Hnext : ∀ t nt,
             (10 ^ (k - 1) ≤ t < 10 ^ k)%Z →
             (inject_Z t * pow10 (nt - k) == v + pow10 (n - k))%Q →
             (v + pow10 (n - k) <= v')%Q →
             (t, nt) = (s', n')).
  { intros t nt Ht Hval Hle.
    assert (Hdt : denotes m e t nt k).
    { split_and!; [done|lia|lia|].
      apply (rounds_to_convex m e v v'); [done|done|rewrite Hval; lra|by rewrite Hval]. }
    destruct (Hc t nt Hdt) as [Hbest _].
    apply (digits_unique k); [done..|]. fold v'. rewrite Hval.
    destruct (Qlt_le_dec (v + pow10 (n - k)) v') as [Hin|]; [exfalso|lra].
    rewrite Hval in Hbest.
    destruct (Qlt_le_dec (v + pow10 (n - k)) x).
    - rewrite (Qabs_neg (v + pow10 (n - k) - x)) in Hbest by lra. lra.
    - rewrite (Qabs_pos (v + pow10 (n - k) - x)) in Hbest by lra. lra. }
  destruct (Z_lt_le_dec (s + 1) (10 ^ k)) as [Hin | Hout].
  - assert (Hst : ((s + 1)%Z, n) = (s', n')).
    { apply Hnext.
      - lia.
      - rewrite inject_Z_plus. change (inject_Z 1) with 1%Q. subst v. ring.
      - destruct (Z.eq_dec n' n) as [Hn'|Hne].
        + pose proof (Hsame Hn') as Hle. subst n'. rewrite Zle_Qle, inject_Z_plus in Hle.
          change (inject_Z 1) with 1%Q in Hle. subst v v'. nra.
        + apply Hfar in Hne. rewrite Zlt_Qlt, inject_Z_plus, <- pow10_inject in Hin by lia.
          change (inject_Z 1) with 1%Q in Hin. subst v. nra. }
    injection Hst as <- <-.
    rewrite Z.add_1_r, Z.even_succ, <- Z.negb_even in Ev1, Ev2.
    destruct (Z.even s); cbn in Ev1, Ev2; [by specialize (Ev2 eq_refl)|by specialize (Ev1 eq_refl)].
  - assert (Hs9 : s = (10 ^ k - 1)%Z) by lia.
    assert (Hne : n' ≠ n) by (intros Hn'; apply Hsame in Hn'; lia).
    assert (Hv : (v + pow10 (n - k) == pow10 n)%Q).
    { subst v. rewrite Hs9. replace (10 ^ k - 1)%Z with (10 ^ k + -1)%Z by lia.
      rewrite inject_Z_plus, <- pow10_inject, E2 by lia.
      change (inject_Z (-1)) with (-1 # 1)%Q. ring. }
    assert (Hst : ((10 ^ (k - 1))%Z, (n + 1)%Z) = (s', n')).
    { apply Hnext.
      - split; [lia|]. apply Z.pow_lt_mono_r; lia.
      - rewrite Hv, <- pow10_inject, <- pow10_add by lia.
        by replace (k - 1 + (n + 1 - k))%Z with n by lia.
      - rewrite Hv. by apply Hfar. }
    injection Hst as <- <-.
    destruct (Z.eq_dec k 1%Z) as [->|Hk1].
    + apply (no_tie_at_one_digit m e (n - 1) Hb).
      * subst v. by rewrite Hs9 in Hr.
      * fold x.
        assert (Hv' : (v' == 10 * pow10 (n - 1))%Q).
        { subst v'. replace (n + 1 - 1)%Z with (1 + (n - 1))%Z by lia.
          rewrite pow10_add. change (pow10 1) with (10 # 1)%Q.
          change (inject_Z (10 ^ (1 - 1))) with 1%Q. ring. }
        assert (Hv9 : (v == 9 * pow10 (n - 1))%Q) by (subst v; by rewrite Hs9).
        lra.
    + assert (Z.even (10 ^ (k - 1)) = true) as Hev by (rewrite Z.even_pow by lia; done).
      apply Ev1 in Hev. rewrite Hs9, Z.even_sub, Z.even_pow in Hev by lia. done.
Qed.

(** The canonical digits of a binary64 number are unique. *)
Lemma canonical_unique (m : positive) (e s n k s' n' k' : Z) :
  bounded 53 1024 m e = true →
  canonical m e s n k → canonical m e s' n' k' → (s, n, k) = (s', n', k').
Proof.
  intros Hb Hc Hc'.
  assert (k' = k) as ->.
  { destruct Hc as (Hd & Hmin & _), Hc' as (Hd' & Hmin' & _).
    apply Hmin in Hd'. apply Hmin' in Hd. lia. }
  enough ((s, n) = (s', n')) by congruence.
  set (x := (inject_Z (Z.pos m) * pow2 e)%Q).
  set (v := (inject_Z s * pow10 (n - k))%Q).
  set (v' := (inject_Z s' * pow10 (n' - k))%Q).
  assert (Hsides : ¬ (v < x ∧ x < v')%Q ∧ ¬ (v' < x ∧ x < v)%Q).
  { split; intros [Hlt Hgt].
    - exact (no_tie m e s n s' n' k Hb Hc Hc' Hlt Hgt).
    - exact (no_tie m e s' n' s n k Hb Hc' Hc Hlt Hgt). }
  destruct Hsides as [Hside Hside'].
  destruct Hc as (Hd & _ & Hbest), Hc' as (Hd' & _ & Hbest').
  cbv zeta in Hbest, Hbest'.
  destruct (Hbest s' n' Hd') as [H1 _]. destruct (Hbest' s n Hd) as [H2 _].
  fold x v v' in H1, H2. clear Hbest Hbest'.
  destruct Hd as (Hk & Hs & _), Hd' as (_ & Hs' & _).
  apply (digits_unique k); [done..|]. fold v v'.
  destruct (Qlt_le_dec v x) as [Hlt|Hge]; destruct (Qlt_le_dec v' x) as [Hlt'|Hge'].
  - rewrite (Qabs_neg (v - x)), (Qabs_neg (v' - x)) in H1, H2 by lra. lra.
  - destruct (Qlt_le_dec x v') as [Hgt'|Hle']; [destruct Hside; by split|].
    rewrite (Qabs_neg (v - x)), (Qabs_neg (v' - x)) in H1, H2 by lra. lra.
  - destruct (Qlt_le_dec x v) as [Hgt|Hle]; [destruct Hside'; by split|].
    rewrite (Qabs_neg (v - x)), (Qabs_neg (v' - x)) in H1, H2 by lra. lra.
  - rewrite (Qabs_pos (v - x)), (Qabs_pos (v' - x)) in H1, H2 by lra. lra.
Qed.

(** So a number has one rendering, the one [Number_toString] gives. *)
Lemma renders_unique (x : float) (text : string) :
  renders x text ↔ text = Number_toString x.
Proof.
  split; [|intros ->; apply Number_toString_renders].
  pose proof (Number_toString_renders x) as H. pose proof (Prim2SF_valid x) as Hv.
  unfold renders in *. destruct (Prim2SF x) as [sign| sign| |sign m e].
  - congruence.
  - congruence.
  - congruence.
  - destruct H as (s & n & k & Hc & ->). intros (s' & n' & k' & Hc' & ->).
    by pose proof (canonical_unique m e s n k s' n' k' Hv Hc Hc') as [= -> -> ->].
Qed.

End NumberRendering.

(** ** Payment creation *)

Section CreatePayment.
Import Payments Spec.
Context {W : Type}.
Variable send : AxiosRequestConfig → W → outcome * W.
Variable env : Env.env.

Lemma issued_post_with_key (url key base : string) (body : gmap string value) :
  key ≠ "" →
  issued env "post" url (VObj body) {[ "apiKey" := VStr key; "baseURL" := VStr base ]}
  = {| headers := {[ "Content-Type" := VStr "application/json";
                     "X-API-Key" := VStr key ]};
       props := {[ "baseURL" := VStr base; "data" := VObj body;
                   "method" := VStr "post"; "url" := VStr url ]} |}.
Proof. destruct key as [|c key]; [done|]. intros _. by vm_compute. Qed.

(** What [createPayment] does with a payment given as an object. *)
Lemma createPayment_run (apiKey : value) (paymentData : gmap string value) (w : W) :
  run (createPayment send env apiKey (VObj paymentData)) w
  = let resolve := merchant_step env apiKey in
    let field k := default VUndefined (paymentData !! k) in
    match send resolve w with
    | (inl e, w1) => (inl (LibError e), {| world := w1; log := [(resolve, inl e)] |})
    | (inr r1, w1) =>
        match JS.get (data r1) "id" with
        | inl message =>
            (inl (JsError message), {| world := w1; log := [(resolve, inr r1)] |})
        | inr merchantId =>
            let submit :=
              submit_step env apiKey
                (payment_body merchantId (field "amount") (field "currency")
                   (field "description") (field "payment_method")) in
            let '(o, w2) := send submit w1 in
            (settled o, {| world := w2; log := [(resolve, inr r1); (submit, o)] |})
        end
    end.
Proof.
  unfold run, createPayment. rewrite try_rethrow.
  unfold Axios.get, post, verb, mbind, io_bind, mret, io_ret, lift, dispatch.
  fold (merchant_step env apiKey). cbn [world log app JS.get].
  destruct (send (merchant_step env apiKey) w) as [[e|r1] w1]; [done|].
  destruct (JS.get (data r1) "id") as [message|merchantId]; [done|].
  cbv zeta. unfold submit_step, gatewayUrl. cbn [world log app].
  by destruct (send _ w1) as [[e|r2] w2].
Qed.

(** C6, as the code has it: [createPayment] first asks the merchant
    service for the merchant of the credential, and only after that
    answer posts to the gateway a body whose [merchant_id] is the [id]
    of that merchant, whose [amount] is the string conversion of the
    amount given, whose [currency] and [description] are the ones given,
    and whose [payment_method] is the one given when that is truthy and
    ['card'] when it is omitted or otherwise falsy. When the merchant
    cannot be resolved nothing is posted. *)
Theorem createPayment_resolves_then_submits
    (key : string) (paymentData : gmap string value) (w : W) :
  let given k := default VUndefined (paymentData !! k) in
  let resolve :=
    {| headers := {[ "Content-Type" := VStr "application/json";
                     "X-API-Key" := VStr key ]};
       props := {[ "baseURL" := VStr (Merchants.merchantServiceUrl env);
                   "method" := VStr "get";
                   "url" := VStr "/api/v1/merchants/me" ]} |} in
  let submit merchantId :=
    {| headers := {[ "Content-Type" := VStr "application/json";
                     "X-API-Key" := VStr key ]};
       props := {[ "baseURL" := VStr (gatewayUrl env);
                   "data" := VObj {[ "merchant_id" := merchantId;
                                     "amount" := VStr (ToString (given "amount"));
                                     "currency" := given "currency";
                                     "description" := given "description";
                                     "payment_method" :=
                                       if truthy (given "payment_method")
                                       then given "payment_method"
                                       else VStr "card" ]};
                   "method" := VStr "post";
                   "url" := VStr "/v1/payments" ]} |} in
  let out := run (createPayment send env (VStr key) (VObj paymentData)) w in
  key ≠ "" →
  (∀ e w1, send resolve w = (inl e, w1) →
     out = (inl (LibError e), {| world := w1; log := [(resolve, inl e)] |}))
  ∧ (∀ r1 w1 merchantId o w2,
       send resolve w = (inr r1, w1) →
       JS.get (data r1) "id" = inr merchantId →
       send (submit merchantId) w1 = (o, w2) →
       out = (settled o,
              {| world := w2; log := [(resolve, inr r1); (submit merchantId, o)] |})).
Proof.
  intros given resolve submit out Hkey.
  subst out resolve submit. rewrite createPayment_run. cbv zeta.
  unfold merchant_step.
  rewrite (issued_get_with_key env "/api/v1/merchants/me" key _ Hkey).
  split.
  - intros e w1 H1. by rewrite H1.
  - intros r1 w1 merchantId o w2 H1 Hid H2. rewrite H1, Hid.
    unfold submit_step, payment_body, or_else.
    rewrite (issued_post_with_key "/v1/payments" key _ _ Hkey).
    fold (given "amount") (given "currency") (given "description")
      (given "payment_method").
    by rewrite H2.
Qed.

(** The body handed to [post] is the body of the request issued. *)
Lemma submit_step_body (apiKey : value) (body : gmap string value) (k : string) :
  body_field (submit_step env apiKey (VObj body)) k = body !! k.
Proof.
  unfold body_field, submit_step, issued, prepare.
  set (call := call_config "post" "/v1/payments" (VObj body) _).
  assert (Hdata : props (mergeConfig env call) !! "data" = Some (VObj body)).
  { apply mergeConfig_lookup; [|done]. subst call. unfold call_config. by simplify_map_eq. }
  unfold request_interceptor.
  destruct (truthy _); cbn [props].
  - rewrite lookup_delete_ne by done. by rewrite Hdata.
  - by rewrite Hdata.
Qed.

Lemma payment_body_amount (merchantId amount currency description payment_method : value) :
  own (payment_body merchantId amount currency description payment_method) "amount"
  = Some (VStr (ToString amount)).
Proof.
  unfold payment_body, own.
  generalize (ToString amount) (or_else payment_method (VStr "card")).
  intros a pm. by vm_compute.
Qed.

(** Number::toString on a few numbers, as the language renders them;
    the last four take all seventeen digits. *)
Lemma Number_toString_samples :
  map Number_toString [100.00; 100.5; 0.1; 1e21; 1e-7; 123456789; 0x1p-1074; -2.5;
                       0.1 + 0.2; 1.1 + 2.2; 10 / 3; 19.99 * 100]%float
  = ["100"; "100.5"; "0.1"; "1e+21"; "1e-7"; "123456789"; "5e-324"; "-2.5";
     "0.30000000000000004"; "3.3000000000000003"; "3.3333333333333335";
     "1998.9999999999998"].
Proof. by vm_compute. Qed.

(** C10: the [amount] that [createPayment] submits is the string
    conversion of the amount it was given: the caller's own string when
    the amount is a string, and the canonical decimal rendering when it
    is a number, that is the one text ECMA-262 allows: the layout of
    the shortest digit string that rounds to the number, the closest one
    of that length. So the number [100.00] is submitted as ["100"], and
    the sum [1.1 + 2.2] with all its seventeen digits, as
    ["3.3000000000000003"]. *)
Theorem payment_amount_as_string
    (apiKey : value) (paymentData : gmap string value) (w : W) :
  let out := run (createPayment send env apiKey (VObj paymentData)) w in
  (length (log out.2) = 2 →
     (∀ s : string, paymentData !! "amount" = Some (VStr s) →
        submitted (log out.2) "amount" = Some (VStr s))
     ∧ (∀ x : float, paymentData !! "amount" = Some (VNum x) →
          submitted (log out.2) "amount" = Some (VStr (Number_toString x))
          ∧ ∀ text, Decimal.renders x text ↔ text = Number_toString x))
  ∧ (∀ merchantId currency description payment_method (s : string),
       own (payment_body merchantId (VStr s) currency description payment_method) "amount"
       = Some (VStr s))
  ∧ (∀ merchantId currency description payment_method,
       own (payment_body merchantId (VNum 100.00) currency description payment_method)
         "amount"
       = Some (VStr "100"))
  ∧ (∀ merchantId currency description payment_method,
       map (λ x, own (payment_body merchantId (VNum x) currency description payment_method)
                   "amount")
         [0.1 + 0.2; 1.1 + 2.2; 10 / 3; 19.99 * 100]%float
       = map (λ text, Some (VStr text))
           ["0.30000000000000004"; "3.3000000000000003"; "3.3333333333333335";
            "1998.9999999999998"])
  ∧ submitted
      (log (run (createPayment Examples.scripted Examples.local (VStr "sk_demo")
                   (VObj {[ "amount" := VNum 100.00; "currency" := VStr "RUB";
                            "description" := VStr "Order #1" ]}))
              [Examples.answered 200 (VObj {[ "id" := VStr "m_1" ]});
               Examples.answered 201 (VObj {[ "id" := VStr "p_1";
                                              "status" := VStr "succeeded" ]})]).2)
      "amount"
    = Some (VStr "100").
Proof.
  intros out. split; [|split; [|split; [|split]]].
  - subst out. rewrite createPayment_run. cbv zeta.
    destruct (send (merchant_step env apiKey) w) as [[e|r1] w1]; [done|].
    destruct (JS.get (data r1) "id") as [message|merchantId]; [done|].
    destruct (send _ w1) as [o w2]. intros _.
    unfold submitted; simpl. unfold payment_body. rewrite submit_step_body.
    split.
    + intros s Hs. rewrite Hs; simpl. by simplify_map_eq.
    + intros x Hx. split; [|apply renders_unique].
      rewrite Hx; cbn [default]. by simplify_map_eq.
  - intros merchantId currency description payment_method s.
    by rewrite payment_body_amount.
  - intros merchantId currency description payment_method.
    rewrite payment_body_amount. by vm_compute.
  - intros merchantId currency description payment_method.
    cbn [map]. rewrite !payment_body_amount. by vm_compute.
  - by vm_compute.
Qed.

End CreatePayment.

(** The form sends the amount as the text of its input field. *)
Lemma payment_amount_as_string_witness :
  Spec.submitted
    (log (run (Payments.createPayment Examples.scripted Examples.local (VStr "sk_demo")
                 (VObj {[ "amount" := VStr "100.00"; "currency" := VStr "RUB";
                          "description" := VStr "Order #1";
                          "payment_method" := VStr "card" ]}))
            [Examples.answered 200 (VObj {[ "id" := VStr "m_1" ]});
             Examples.answered 201 (VObj {[ "id" := VStr "p_1" ]})]).2)
    "amount"
  = Some (VStr "100.00").
Proof.
  destruct (payment_amount_as_string Examples.scripted Examples.local (VStr "sk_demo")
              {[ "amount" := VStr "100.00"; "currency" := VStr "RUB";
                 "description" := VStr "Order #1"; "payment_method" := VStr "card" ]}
              [Examples.answered 200 (VObj {[ "id" := VStr "m_1" ]});
               Examples.answered 201 (VObj {[ "id" := VStr "p_1" ]})]) as [H _].
  destruct H as [H _]; [reflexivity|].
  apply (H "100.00"). reflexivity.
Defined.

(** C6, as stated, fails on a payment whose [payment_method] is given
    but empty: the field is not omitted, and yet the body submitted
    carries ['card'] and not the value given. *)
Lemma createPayment_empty_method_counterexample :
  let paymentData :=
    VObj {[ "amount" := VStr "10.50"; "currency" := VStr "RUB";
            "description" := VStr "Order #1"; "payment_method" := VStr "" ]} in
  let out :=
    run (Payments.createPayment Examples.scripted Examples.local (VStr "sk_demo") paymentData)
      [Examples.answered 200 (VObj {[ "id" := VStr "m_1" ]});
       Examples.answered 201 (VObj {[ "id" := VStr "p_1" ]})] in
  own paymentData "payment_method" = Some (VStr "")
  ∧ Spec.submitted (log out.2) "payment_method" = Some (VStr "card")
  ∧ Spec.submitted (log out.2) "payment_method" ≠ own paymentData "payment_method".
Proof. vm_compute. repeat split. discriminate. Qed.

(** A card payment of 10.50 RUB: the merchant is resolved, then the
    payment is posted. *)
Lemma createPayment_resolves_then_submits_witness :
  ∃ st,
    run (Payments.createPayment Examples.scripted Examples.local (VStr "sk_demo")
           (VObj {[ "amount" := VStr "10.50"; "currency" := VStr "RUB";
                    "description" := VStr "Order #1" ]}))
      [Examples.answered 200 (VObj {[ "id" := VStr "m_1" ]});
       Examples.answered 201 (VObj {[ "id" := VStr "p_1" ]})]
    = (inr (VObj {[ "id" := VStr "p_1" ]}), st)
    ∧ map (λ x, (Spec.target x.1, props x.1 !! "url")) (log st)
      = [(Some (VStr "http://localhost:8001"), Some (VStr "/api/v1/merchants/me"));
         (Some (VStr "http://localhost:8000"), Some (VStr "/v1/payments"))]
    ∧ Spec.submitted (log st) "payment_method" = Some (VStr "card").
Proof.
  eexists. split; [|split].
  - destruct (createPayment_resolves_then_submits Examples.scripted Examples.local
                "sk_demo"
                {[ "amount" := VStr "10.50"; "currency" := VStr "RUB";
                   "description" := VStr "Order #1" ]}
                [Examples.answered 200 (VObj {[ "id" := VStr "m_1" ]});
                 Examples.answered 201 (VObj {[ "id" := VStr "p_1" ]})])
      as [_ H]; [discriminate|].
    exact (H {| status := 200; data := VObj {[ "id" := VStr "m_1" ]} |} _ (VStr "m_1")
             (Examples.answered 201 (VObj {[ "id" := VStr "p_1" ]})) []
             eq_refl eq_refl eq_refl).
  - vm_compute. reflexivity.
  - vm_compute. reflexivity.
Defined.

(** ** The provider switch *)

Section ProviderSwitch.
Import Providers.
Context {W : Type}.
Variable fetch : Request → W → (string + Response) * W.
Variable env : Env.env.

(** Setting the other hooks leaves the current provider alone. *)
Lemma handleProviderChange_provider (providerName : value) (st : state) (w : W) :
  currentProvider (handleProviderChange fetch env providerName st w).1
  = currentProvider (attempt fetch env providerName
                       (setSuccess false (setError None (setLoading true st))) w).1.2.
Proof.
  unfold handleProviderChange.
  destruct (attempt fetch env providerName _ w) as [[[message|] st1] w']; reflexivity.
Qed.

(** C7: when the backend rejects a provider switch and says why, the
    component ends up showing the detail text the server supplied, with
    the current provider it had before; any rejection and any network
    failure leave the current provider as it was, which changes only on
    a successful response. *)
Theorem switch_rejected_keeps_provider (providerName : value) (st : state) (w : W) :
  let out := handleProviderChange fetch env providerName st w in
  (∀ response w' (errorData : gmap string value) (detail : string),
     fetch (switch_request env providerName) w = (inr response, w') →
     ok response = false →
     json response = inr (VObj errorData) →
     errorData !! "detail" = Some (VStr detail) →
     detail ≠ "" →
     out = ({| currentProvider := currentProvider st;
               availableProviders := availableProviders st;
               loading := false;
               error := Some detail;
               success := false |}, w'))
  ∧ (∀ response w',
       fetch (switch_request env providerName) w = (inr response, w') →
       ok response = false →
       currentProvider out.1 = currentProvider st ∧ is_Some (error out.1))
  ∧ (∀ message w',
       fetch (switch_request env providerName) w = (inl message, w') →
       currentProvider out.1 = currentProvider st ∧ is_Some (error out.1))
  ∧ (currentProvider out.1 ≠ currentProvider st →
     ∃ response w',
       fetch (switch_request env providerName) w = (inr response, w')
       ∧ ok response = true).
Proof.
  intros out. subst out. split; [|split; [|split]].
  - intros response w' errorData detail Hf Hok Hjson Hdetail Hne.
    unfold handleProviderChange, attempt. rewrite Hf, Hok, Hjson; simpl.
    rewrite Hdetail; simpl.
    assert (Hs : String.eqb detail "" = false) by (by destruct detail).
    unfold or_else, message_or; simpl. rewrite Hs; simpl. by rewrite Hs.
  - intros response w' Hf Hok. split.
    + rewrite handleProviderChange_provider. unfold attempt. rewrite Hf, Hok; simpl.
      destruct (json response) as [msg|errorData]; [done|].
      by destruct (JS.get errorData "detail").
    + unfold handleProviderChange, attempt. rewrite Hf, Hok; simpl.
      destruct (json response) as [msg|errorData]; [by eexists|].
      destruct (JS.get errorData "detail"); by eexists.
  - intros message w' Hf. split.
    + by rewrite handleProviderChange_provider; unfold attempt; rewrite Hf.
    + unfold handleProviderChange, attempt. rewrite Hf; simpl. by eexists.
  - rewrite handleProviderChange_provider. unfold attempt.
    destruct (fetch (switch_request env providerName) w) as [[message|response] w'] eqn:Hf;
      [done|].
    destruct (ok response) eqn:Hok; [by exists response, w'|]; simpl.
    destruct (json response) as [msg|errorData]; [done|].
    by destruct (JS.get errorData "detail").
Qed.

End ProviderSwitch.

(** Switching to a key the registry does not have. *)
Lemma switch_rejected_keeps_provider_witness :
  Providers.handleProviderChange (Examples.rejecting "Unknown provider: mock_chaos")
    Examples.local (VStr "mock_chaos") Examples.loaded tt
  = ({| Providers.currentProvider := VStr "mock_success";
        Providers.availableProviders := Providers.availableProviders Examples.loaded;
        Providers.loading := false;
        Providers.error := Some "Unknown provider: mock_chaos";
        Providers.success := false |}, tt).
Proof.
  destruct (switch_rejected_keeps_provider (Examples.rejecting "Unknown provider: mock_chaos")
              Examples.local (VStr "mock_chaos") Examples.loaded tt) as [H _].
  apply (H {| Providers.ok := false;
              Providers.json := inr (VObj {[ "detail" := VStr "Unknown provider: mock_chaos" ]}) |}
           tt {[ "detail" := VStr "Unknown provider: mock_chaos" ]}
           "Unknown provider: mock_chaos");
    [reflexivity | reflexivity | reflexivity | reflexivity | discriminate].
Defined.

(** ** The operations without a fallback *)

Section SingleRequest.
Import Merchants Payments.
Context {W : Type}.
Variable send : AxiosRequestConfig → W → outcome * W.
Variable env : Env.env.

(** Listing the merchants, updating a merchant and listing the payments
    of a period each make one request, whatever its outcome. *)
Lemma single_request_operations (apiKey updateData dateFrom dateTo : value) (w : W) :
  length (log (run (getAllMerchants send env) w).2) = 1
  ∧ length (log (run (updateMerchant send env apiKey updateData) w).2) = 1
  ∧ length (log (run (getAllPayments send env dateFrom dateTo) w).2) = 1.
Proof.
  unfold run, getAllMerchants, updateMerchant, getAllPayments.
  rewrite !try_rethrow.
  unfold Axios.get, patch, verb, mbind, io_bind, mret, io_ret, dispatch.
  cbn [world log app].
  repeat split.
  - by destruct (send _ w) as [[e|r] w'].
  - by destruct (send _ w) as [[e|r] w'].
  - by destruct (send _ w) as [[e|r] w'].
Qed.

End SingleRequest.

(** * Further properties *)

(** ** More on the transport client *)

Section TransportMore.
Context {W : Type}.
Variable send : AxiosRequestConfig → W → outcome * W.
Variable env : Env.env.

(** X1: the request interceptor is idempotent, and no configuration it
    has passed, so none the client issues, still holds a truthy
    [apiKey] property. *)
Theorem interceptor_idempotent (config : AxiosRequestConfig) :
  request_interceptor (request_interceptor config) = request_interceptor config
  ∧ truthy (default VUndefined (props (request_interceptor config) !! "apiKey")) = false
  ∧ (∀ call : gmap string value,
       truthy (default VUndefined (props (prepare env call) !! "apiKey")) = false).
Proof.
  assert (Hclean : ∀ c, truthy (default VUndefined
                                  (props (request_interceptor c) !! "apiKey")) = false).
  { intros c. unfold request_interceptor.
    destruct (truthy (default VUndefined (props c !! "apiKey"))) eqn:Ht; cbn [props].
    - by rewrite lookup_delete_eq.
    - done. }
  split; [|split].
  - pose proof (Hclean config) as H.
    unfold request_interceptor at 1. by rewrite H.
  - apply Hclean.
  - intros call. apply Hclean.
Qed.

(** The base address and the path a call names are the ones issued. *)
Lemma issued_target (method url base : string) (body : value) (config : gmap string value) :
  config !! "baseURL" = Some (VStr base) →
  Spec.target (issued env method url body config) = Some (VStr base).
Proof.
  intros Hb. unfold Spec.target, issued, prepare.
  assert (Hm : props (mergeConfig env (call_config method url body config)) !! "baseURL"
               = Some (VStr base)).
  { apply mergeConfig_lookup; [|done]. unfold call_config. by simplify_map_eq. }
  unfold request_interceptor. destruct (truthy _); cbn [props]; [|done].
  by rewrite lookup_delete_ne.
Qed.

Lemma issued_url (method url : string) (body : value) (config : gmap string value) :
  props (issued env method url body config) !! "url" = Some (VStr url).
Proof.
  unfold issued, prepare.
  assert (Hm : props (mergeConfig env (call_config method url body config)) !! "url"
               = Some (VStr url)).
  { apply mergeConfig_lookup; [|done]. unfold call_config. by simplify_map_eq. }
  unfold request_interceptor. destruct (truthy _); cbn [props]; [|done].
  by rewrite lookup_delete_ne.
Qed.

End TransportMore.

(** ** More on the merchant and payment operations *)

Section ApiMore.
Import Merchants Payments Spec.
Context {W : Type}.
Variable send : AxiosRequestConfig → W → outcome * W.
Variable env : Env.env.

Lemma issued_data (method url : string) (body : value) (config : gmap string value) :
  body ≠ VUndefined →
  props (issued env method url body config) !! "data" = Some body.
Proof.
  intros Hb. unfold issued, prepare.
  assert (Hm : props (mergeConfig env (call_config method url body config)) !! "data"
               = Some body).
  { apply mergeConfig_lookup; [|done]. unfold call_config. by simplify_map_eq. }
  unfold request_interceptor. destruct (truthy _); cbn [props]; [|done].
  by rewrite lookup_delete_ne.
Qed.

Lemma issued_no_data (method url : string) (config : gmap string value) :
  config !! "data" = None →
  props (issued env method url VUndefined config) !! "data" = None.
Proof.
  intros Hc. unfold issued, prepare.
  assert (Hm : props (mergeConfig env (call_config method url VUndefined config)) !! "data"
               = None).
  { unfold mergeConfig, defined, call_config; cbn [props].
    apply lookup_union_None_2; rewrite lookup_omap; by simplify_map_eq. }
  unfold request_interceptor. destruct (truthy _); cbn [props]; [|done].
  by rewrite lookup_delete_ne.
Qed.

(** X2: the first request of [createMerchant] is the creation request,
    whose body is [{ name }] for a bare name, the empty name included
    (the test is on the type, not on truthiness), the profile itself
    for an object, and absent for [undefined]. *)
Theorem createMerchant_profile (nameOrData : value) (w : W) :
  (∃ o rest,
     log (run (createMerchant send env nameOrData) w).2
     = (creation_request env nameOrData, o) :: rest)
  ∧ (∀ name : string,
       props (creation_request env (VStr name)) !! "data"
       = Some (VObj {[ "name" := VStr name ]}))
  ∧ (∀ profile : gmap string value,
       props (creation_request env (VObj profile)) !! "data" = Some (VObj profile))
  ∧ props (creation_request env VUndefined) !! "data" = None.
Proof.
  split; [|split; [|split]].
  - rewrite createMerchant_run. cbv zeta.
    destruct (send (creation_request env nameOrData) w) as [[e|r1] w1]; [|by eexists _, _].
    destruct (not_found e || connection_refused e); [|by eexists _, _].
    destruct (send (creation_request env nameOrData) w1) as [o w2]. by eexists _, _.
  - intros name. unfold creation_request. by apply issued_data.
  - intros profile. unfold creation_request. by apply issued_data.
  - unfold creation_request. by apply issued_no_data.
Qed.

Lemma issued_patch_with_key (url key base : string) (body : gmap string value) :
  key ≠ "" →
  issued env "patch" url (VObj body) {[ "apiKey" := VStr key; "baseURL" := VStr base ]}
  = {| headers := {[ "Content-Type" := VStr "application/json";
                     "X-API-Key" := VStr key ]};
       props := {[ "baseURL" := VStr base; "data" := VObj body;
                   "method" := VStr "patch"; "url" := VStr url ]} |}.
Proof. destruct key as [|c key]; [done|]. intros _. by vm_compute. Qed.

(** X3: [updateMerchant] makes exactly one request, a PATCH of
    [/api/v1/merchants/me] at the merchant service with the update as
    its body and the credential in the [X-API-Key] header only, and
    hands its outcome to the caller as it is: it has no fallback, also
    after a 404 or a refused connection. *)
Theorem updateMerchant_single_patch (key : string) (updateData : gmap string value) (w : W) :
  let patch :=
    {| headers := {[ "Content-Type" := VStr "application/json";
                     "X-API-Key" := VStr key ]};
       props := {[ "baseURL" := VStr (merchantServiceUrl env);
                   "data" := VObj updateData;
                   "method" := VStr "patch";
                   "url" := VStr "/api/v1/merchants/me" ]} |} in
  key ≠ "" →
  run (updateMerchant send env (VStr key) (VObj updateData)) w
  = (settled (send patch w).1,
     {| world := (send patch w).2; log := [(patch, (send patch w).1)] |}).
Proof.
  intros patch Hkey. subst patch.
  unfold run, updateMerchant. rewrite try_rethrow.
  unfold Axios.patch, verb, mbind, io_bind, mret, io_ret, dispatch. cbn [world log app].
  rewrite (issued_patch_with_key "/api/v1/merchants/me" key _ _ Hkey).
  by destruct (send _ w) as [[e|r] w'].
Qed.

Lemma issued_get_params (url base : string) (params : gmap string value) :
  issued env "get" url VUndefined {[ "baseURL" := VStr base; "params" := VObj params ]}
  = {| headers := {[ "Content-Type" := VStr "application/json" ]};
       props := {[ "baseURL" := VStr base; "method" := VStr "get";
                   "params" := VObj params; "url" := VStr url ]} |}.
Proof. by vm_compute. Qed.

(** What [getAllPayments] does: one request, and its outcome. *)
Lemma getAllPayments_run (dateFrom dateTo : value) (w : W) :
  let listing :=
    {| headers := {[ "Content-Type" := VStr "application/json" ]};
       props := {[ "baseURL" := VStr (paymentServiceUrl env);
                   "method" := VStr "get";
                   "params" := VObj {[ "date_from" := dateFrom; "date_to" := dateTo ]};
                   "url" := VStr "/api/v1/payments/all" ]} |} in
  run (getAllPayments send env dateFrom dateTo) w
  = (settled (send listing w).1,
     {| world := (send listing w).2; log := [(listing, (send listing w).1)] |}).
Proof.
  intros listing. subst listing.
  unfold run, getAllPayments. rewrite try_rethrow.
  unfold Axios.get, verb, mbind, io_bind, mret, io_ret, dispatch. cbn [world log app].
  rewrite issued_get_params.
  by destruct (send _ w) as [[e|r] w'].
Qed.

(** What [getAllMerchants] does: one request, and its outcome. *)
Lemma getAllMerchants_run (w : W) :
  let listing :=
    {| headers := {[ "Content-Type" := VStr "application/json" ]};
       props := {[ "baseURL" := VStr (merchantServiceUrl env);
                   "method" := VStr "get";
                   "url" := VStr "/api/v1/merchants/all" ]} |} in
  run (getAllMerchants send env) w
  = (settled (send listing w).1,
     {| world := (send listing w).2; log := [(listing, (send listing w).1)] |}).
Proof.
  intros listing. subst listing.
  unfold run, getAllMerchants. rewrite try_rethrow.
  unfold Axios.get, verb, mbind, io_bind, mret, io_ret, dispatch. cbn [world log app].
  rewrite (issued_get_plain env).
  by destruct (send _ w) as [[e|r] w'].
Qed.

(** X4: [getDashboard] makes between one and three requests; the first
    two go to the merchant service, and a third one is made only after
    both of them succeeded and goes to the payment service. *)
Theorem getDashboard_request_order (apiKey : value) (w : W) :
  let l := log (run (getDashboard send env apiKey) w).2 in
  1 ≤ length l ≤ 3
  ∧ (∀ i x, i < 2 → l !! i = Some x →
       target x.1 = Some (VStr (merchantServiceUrl env)))
  ∧ (∀ x, l !! 2 = Some x →
       target x.1 = Some (VStr (paymentServiceUrl env))
       ∧ ∃ d r1 m r2, l !! 0 = Some (d, inr r1) ∧ l !! 1 = Some (m, inr r2)).
Proof.
  intros l. subst l. rewrite getDashboard_run. cbv zeta.
  assert (Hd : target (dashboard_step env apiKey) = Some (VStr (merchantServiceUrl env))).
  { unfold dashboard_step. apply issued_target. by simplify_map_eq. }
  assert (Hm : target (merchant_step env apiKey) = Some (VStr (merchantServiceUrl env))).
  { unfold merchant_step. apply issued_target. by simplify_map_eq. }
  assert (Hp : ∀ merchantId,
             target (payments_step env merchantId) = Some (VStr (paymentServiceUrl env))).
  { intros merchantId. unfold payments_step. apply issued_target. by simplify_map_eq. }
  destruct (send (dashboard_step env apiKey) w) as [[e|r1] w1]; cbn [log snd].
  { split; [simpl; lia|]. split.
    - intros [|[|i]] x Hi Hx; simplify_eq/=; done || lia.
    - intros x Hx. done. }
  destruct (send (merchant_step env apiKey) w1) as [[e|r2] w2]; cbn [log snd].
  { split; [simpl; lia|]. split.
    - intros [|[|i]] x Hi Hx; simplify_eq/=; done || lia.
    - intros x Hx. done. }
  destruct (JS.get (data r2) "id") as [message|merchantId]; cbn [log snd].
  { split; [simpl; lia|]. split.
    - intros [|[|i]] x Hi Hx; simplify_eq/=; done || lia.
    - intros x Hx. done. }
  destruct (send (payments_step env merchantId) w2) as [[e|r3] w3]; cbn [log snd].
  - split; [simpl; lia|]. split.
    + intros [|[|i]] x Hi Hx; simplify_eq/=; done || lia.
    + intros x Hx. simplify_eq/=. split; [apply Hp|]. by eexists _, _, _, _.
  - split; [simpl; lia|]. split.
    + intros [|[|i]] x Hi Hx; simplify_eq/=; done || lia.
    + intros x Hx. simplify_eq/=. split; [apply Hp|]. by eexists _, _, _, _.
Qed.

(** X5: [getDashboard] does not check the merchant it resolved. For a
    merchant object without an [id] it asks the payment service for
    [/api/v1/payments/by-merchant/undefined]; for a [null] or missing
    merchant it fails with a TypeError after two requests. *)
Theorem getDashboard_missing_id (apiKey : value) (w : W) r1 w1 r2 w2 :
  send (dashboard_step env apiKey) w = (inr r1, w1) →
  send (merchant_step env apiKey) w1 = (inr r2, w2) →
  let out := run (getDashboard send env apiKey) w in
  (∀ merchant : gmap string value,
     data r2 = VObj merchant → merchant !! "id" = None →
     ∃ listing o,
       log out.2 !! 2 = Some (listing, o)
       ∧ props listing !! "url" = Some (VStr "/api/v1/payments/by-merchant/undefined"))
  ∧ (data r2 = VNull ∨ data r2 = VUndefined →
     length (log out.2) = 2 ∧ ∃ message, out.1 = inl (JsError message)).
Proof.
  intros H1 H2 out. subst out. rewrite getDashboard_run. cbv zeta. rewrite H1, H2.
  split.
  - intros merchant Hdata Hid. rewrite Hdata. cbn [JS.get]. rewrite Hid. cbn [default].
    destruct (send (payments_step env VUndefined) w2) as [[e|r3] w3]; cbn [log snd].
    + eexists _, _. split; [reflexivity|]. unfold payments_step. by rewrite issued_url.
    + eexists _, _. split; [reflexivity|]. unfold payments_step. by rewrite issued_url.
  - intros [-> | ->]; cbn [JS.get]; split; try done; by eexists.
Qed.

(** What [createPayment] does when it is given no payment. *)
Lemma createPayment_run_nothing (apiKey paymentData : value) (w : W) :
  paymentData = VNull ∨ paymentData = VUndefined →
  ∃ r, (run (createPayment send env apiKey paymentData) w).1 = r
       ∧ length (log (run (createPayment send env apiKey paymentData) w).2) = 1
       ∧ ∀ value, r ≠ inr value.
Proof.
  intros Hp. eexists. split; [reflexivity|].
  unfold run, createPayment. rewrite try_rethrow.
  unfold Axios.get, post, verb, mbind, io_bind, mret, io_ret, lift, dispatch.
  cbn [world log app].
  destruct (send _ w) as [[e|r1] w1]; [done|].
  destruct (JS.get (data r1) "id") as [message|merchantId]; [done|].
  by destruct Hp as [-> | ->].
Qed.

(** X6: the first request of [createPayment] is the merchant lookup,
    and there is at most one more, made only after the lookup
    succeeded; called without a payment ([null] or [undefined]) it
    still makes the lookup and then fails without posting anything. *)
Theorem createPayment_request_order (apiKey paymentData : value) (w : W) :
  let out := run (createPayment send env apiKey paymentData) w in
  (∃ o rest, log out.2 = (merchant_step env apiKey, o) :: rest
             ∧ (rest ≠ [] → ∃ r1, o = inr r1) ∧ length rest ≤ 1)
  ∧ (paymentData = VNull ∨ paymentData = VUndefined →
     length (log out.2) = 1 ∧ ∀ payment, out.1 ≠ inr payment).
Proof.
  intros out. subst out. split.
  - unfold run, createPayment. rewrite try_rethrow.
    unfold Axios.get, post, verb, mbind, io_bind, mret, io_ret, lift, dispatch.
    fold (merchant_step env apiKey). cbn [world log app].
    destruct (send (merchant_step env apiKey) w) as [[e|r1] w1].
    { eexists _, []. split; [done|]. split; [done|simpl; lia]. }
    destruct (JS.get (data r1) "id") as [?|merchantId];
      [eexists _, []; split; [done|]; split; [done|simpl; lia]|].
    destruct (JS.get paymentData "amount") as [?|amount];
      [eexists _, []; split; [done|]; split; [done|simpl; lia]|].
    destruct (JS.get paymentData "currency") as [?|currency];
      [eexists _, []; split; [done|]; split; [done|simpl; lia]|].
    destruct (JS.get paymentData "description") as [?|description];
      [eexists _, []; split; [done|]; split; [done|simpl; lia]|].
    destruct (JS.get paymentData "payment_method") as [?|payment_method];
      [eexists _, []; split; [done|]; split; [done|simpl; lia]|].
    cbn [world log app].
    destruct (send _ w1) as [[e|r2] w2]; cbn [log snd];
      (eexists _, [_]; split; [done|]; split; [by eexists|simpl; lia]).
  - intros Hp.
    destruct (createPayment_run_nothing apiKey paymentData w Hp) as (r & Hr & Hlen & Hno).
    split; [done|]. intros payment. rewrite Hr. apply Hno.
Qed.

End ApiMore.

(** ** The payment form *)

Section PaymentFormMore.
Import Handlers PaymentFormPage Spec.
Context {W : Type}.
Variable send : AxiosRequestConfig → W → outcome * W.
Variable env : Env.env.

(** A failure is never shown as nothing. *)
Lemma error_text_truthy (fallback : string) (err : exn) :
  fallback ≠ "" → truthy (error_text fallback err) = true.
Proof.
  intros Hf. unfold error_text, or_else.
  destruct (truthy (if truthy (response_detail err) then _ else _)) eqn:Ht; [done|].
  by destruct fallback.
Qed.

(** A detail text in the body of a failure response is what is shown. *)
Lemma error_text_detail (fallback : string) (e : AxiosError) r (b : gmap string value)
    (d : string) :
  response e = Some r → data r = VObj b → b !! "detail" = Some (VStr d) → d ≠ "" →
  error_text fallback (LibError e) = VStr d.
Proof.
  intros Hr Hd Hb Hne. unfold error_text, response_detail.
  destruct e as [resp c m]; simpl in Hr; subst resp. rewrite Hd. cbn [JS.get].
  rewrite Hb. cbn [default]. unfold or_else.
  assert (Ht : negb (String.eqb d "") = true) by (by destruct d).
  simpl. rewrite Ht. simpl. by rewrite Ht.
Qed.

Lemma handleSubmit_net (st : state) (net : Axios.state W) :
  (handleSubmit send env st net).2
  = (Payments.createPayment send env (default VUndefined (formData st !! "apiKey"))
       (paymentData st) net).2.
Proof.
  unfold handleSubmit.
  by destruct (Payments.createPayment send env _ _ net) as [[err|result] net'].
Qed.

(** X7: whatever happens, [handleSubmit] ends with [loading] off and
    the form fields as they were, opens at most one window, and opens
    none when it reports an error; a failed [createPayment] leaves no
    payment result and a non-empty error, and no error means the
    result shown is the payment [createPayment] returned. *)
Theorem handleSubmit_reports (st : state) (net : Axios.state W) :
  let out := (handleSubmit send env st net).1 in
  loading out.1 = false
  ∧ formData out.1 = formData st
  ∧ length out.2 ≤ 1
  ∧ (error out.1 = VNull ∨ truthy (error out.1) = true ∧ out.2 = [])
  ∧ (∀ err net',
       Payments.createPayment send env (default VUndefined (formData st !! "apiKey"))
         (paymentData st) net = (inl err, net') →
       paymentResult out.1 = VNull ∧ truthy (error out.1) = true)
  ∧ (error out.1 = VNull →
     ∃ net',
       Payments.createPayment send env (default VUndefined (formData st !! "apiKey"))
         (paymentData st) net = (inr (paymentResult out.1), net')).
Proof.
  intros out. subst out. unfold handleSubmit.
  assert (Hshown : ∀ err, truthy (error_text "Ошибка при создании платежа" err) = true).
  { intros err. by apply error_text_truthy. }
  assert (Hnot : ∀ err, error_text "Ошибка при создании платежа" err ≠ VNull).
  { intros err Hnull. pose proof (Hshown err) as Ht. by rewrite Hnull in Ht. }
  destruct (Payments.createPayment send env _ _ net) as [[err|result] net']; cbn [fst snd].
  - cbn [loading formData error paymentResult length]. split_and!; try done.
    + lia.
    + right. by rewrite Hshown.
    + intros Hnull. by destruct (Hnot err).
  - destruct (PaymentForm.opened env result) as [message|[u|]];
      cbn [fst snd loading formData error paymentResult length]; split_and!; try done;
      try lia; try (by left); try (by eexists).
    right. by rewrite Hshown.
Qed.

(** X8: when the merchant service rejects the form's credential with a
    detail text, [handleSubmit] shows exactly that text, clears the
    previous result, opens no window, and has made the lookup request
    only: nothing was posted to the gateway. *)
Theorem handleSubmit_rejected_credential (st : state) (w : W)
    e w1 r (b : gmap string value) (d : string) :
  let apiKey := default VUndefined (formData st !! "apiKey") in
  send (merchant_step env apiKey) w = (inl e, w1) →
  response e = Some r → data r = VObj b → b !! "detail" = Some (VStr d) → d ≠ "" →
  handleSubmit send env st {| world := w; log := [] |}
  = (({| formData := formData st; paymentResult := VNull;
         error := VStr d; loading := false |}, []),
     {| world := w1; log := [(merchant_step env apiKey, inl e)] |}).
Proof.
  intros apiKey Hsend Hr Hd Hb Hne. unfold handleSubmit.
  change (Payments.createPayment send env (default VUndefined (formData st !! "apiKey"))
            (paymentData st) {| world := w; log := [] |})
    with (run (Payments.createPayment send env apiKey (paymentData st)) w).
  unfold paymentData. rewrite createPayment_run. cbv zeta. rewrite Hsend.
  by rewrite (error_text_detail _ e r b d Hr Hd Hb Hne).
Qed.

Lemma issued_credential (method url : string) (body key : value)
    (config : gmap string value) :
  config !! "apiKey" = Some key → truthy key = true →
  headers (issued env method url body config) !! "X-API-Key" = Some key.
Proof.
  intros Hk Ht. unfold issued, prepare.
  assert (Hm : props (mergeConfig env (call_config method url body config)) !! "apiKey"
               = Some key).
  { apply mergeConfig_lookup; [|by destruct key]. unfold call_config. by simplify_map_eq. }
  unfold request_interceptor. rewrite Hm; simpl. rewrite Ht; simpl.
  apply lookup_insert_eq.
Qed.

Lemma payment_body_fields (merchantId amount currency description payment_method : value) :
  let body := Payments.payment_body merchantId amount currency description payment_method in
  own body "merchant_id" = Some merchantId
  ∧ own body "amount" = Some (VStr (ToString amount))
  ∧ own body "currency" = Some currency
  ∧ own body "description" = Some description
  ∧ own body "payment_method" = Some (or_else payment_method (VStr "card")).
Proof.
  unfold Payments.payment_body, own.
  generalize (ToString amount) (or_else payment_method (VStr "card")).
  intros a pm. by vm_compute.
Qed.

Lemma paymentData_fields (st : state) :
  let given k := default VUndefined (formData st !! k) in
  ∃ o : gmap string value,
    paymentData st = VObj o
    ∧ default VUndefined (o !! "amount") = given "amount"
    ∧ default VUndefined (o !! "currency") = given "currency"
    ∧ default VUndefined (o !! "description") = given "description"
    ∧ default VUndefined (o !! "payment_method") = given "payment_method".
Proof.
  intros given. subst given. unfold paymentData. cbv beta zeta.
  generalize (default VUndefined (formData st !! "amount"))
    (default VUndefined (formData st !! "currency"))
    (default VUndefined (formData st !! "description"))
    (default VUndefined (formData st !! "payment_method")).
  intros a c d pm. eexists. split; [reflexivity|]. by vm_compute.
Qed.

(** X9: a field changed through [handleChange] is what a following
    [handleSubmit] submits: the currency and the description as typed,
    the amount as its string, the payment method unless it is falsy
    (then ['card']), the credential in the [X-API-Key] header of both
    requests; the fields not changed keep their values. *)
Theorem handleSubmit_sends_form (name : string) (v : value) (st : state) (w : W) :
  let l := log (handleSubmit send env (handleChange name v st)
                  {| world := w; log := [] |}).2 in
  length l = 2 →
  (name = "currency" ∨ name = "description" → submitted l name = Some v)
  ∧ (name = "amount" → submitted l "amount" = Some (VStr (ToString v)))
  ∧ (name = "payment_method" →
     submitted l "payment_method" = Some (or_else v (VStr "card")))
  ∧ (name = "apiKey" → truthy v = true →
     Forall (λ x, headers x.1 !! "X-API-Key" = Some v) l)
  ∧ (∀ k, k ≠ name → k = "currency" ∨ k = "description" →
       submitted l k = Some (default VUndefined (formData st !! k))).
Proof.
  intros l. subst l. rewrite handleSubmit_net.
  set (typed := handleChange name v st).
  assert (Hfd : formData typed = <[name := v]> (formData st)) by done.
  destruct (paymentData_fields typed) as (o & Ho & Hamount & Hcurrency & Hdescription & Hpm).
  rewrite Ho.
  change (Payments.createPayment send env ?k (VObj o) {| world := w; log := [] |})
    with (run (Payments.createPayment send env k (VObj o)) w).
  rewrite createPayment_run. cbv beta zeta.
  rewrite Hamount, Hcurrency, Hdescription, Hpm, Hfd.
  destruct (send (merchant_step env _) w) as [[e|r1] w1]; [done|].
  destruct (JS.get (data r1) "id") as [message|merchantId]; [done|].
  destruct (send _ w1) as [o2 w2]. intros _. cbn [log snd].
  assert (Hsub : ∀ apiKey body k,
            body ≠ VUndefined →
            submitted [(merchant_step env apiKey, inr r1);
                       (submit_step env apiKey body, o2)] k = own body k).
  { intros apiKey body k Hb. unfold submitted, body_field, submit_step.
    cbn [last mbind option_bind fst]. by rewrite issued_data. }
  destruct (payment_body_fields merchantId
              (default VUndefined (<[name:=v]> (formData st) !! "amount"))
              (default VUndefined (<[name:=v]> (formData st) !! "currency"))
              (default VUndefined (<[name:=v]> (formData st) !! "description"))
              (default VUndefined (<[name:=v]> (formData st) !! "payment_method")))
    as (_ & Ba & Bc & Bd & Bp).
  split_and!.
  - intros [-> | ->]; (rewrite Hsub by done); [rewrite Bc | rewrite Bd];
      by simplify_map_eq.
  - intros ->. rewrite Hsub by done. rewrite Ba. by simplify_map_eq.
  - intros ->. rewrite Hsub by done. rewrite Bp. by simplify_map_eq.
  - intros -> Hv.
    assert (Hkey : default VUndefined (<["apiKey":=v]> (formData st) !! "apiKey") = v)
      by (by simplify_map_eq).
    rewrite Hkey. repeat constructor; cbn [fst].
    + unfold merchant_step. apply issued_credential; [by simplify_map_eq|done].
    + unfold submit_step. apply issued_credential; [by simplify_map_eq|done].
  - intros k Hk [-> | ->]; (rewrite Hsub by done); [rewrite Bc | rewrite Bd];
      by simplify_map_eq.
Qed.

End PaymentFormMore.

(** X10: [getStatusBadgeClass] gives [status-<status>] for the five
    known statuses and [status-pending] for every other status, except
    for the names of the members of [Object.prototype] ([constructor],
    [toString], ...), for which the lookup finds the inherited member
    and no class at all. *)
Theorem getStatusBadgeClass_total (status : value) :
  let s := ToString status in
  let known := ["succeeded"; "pending"; "processing"; "failed"; "requires_action"] in
  (s ∈ known →
   PaymentFormPage.getStatusBadgeClass status = inl (VStr ("status-" +:+ s)))
  ∧ (s ∉ known → s ∉ Builtins.Object_prototype →
     PaymentFormPage.getStatusBadgeClass status = inl (VStr "status-pending"))
  ∧ (s ∈ Builtins.Object_prototype →
     PaymentFormPage.getStatusBadgeClass status = inr s).
Proof.
  unfold PaymentFormPage.getStatusBadgeClass. generalize (ToString status).
  intros s. cbv zeta. split_and!.
  - intros Hs. repeat (apply elem_of_cons in Hs as [-> | Hs]; [by vm_compute|]).
    by apply elem_of_nil in Hs.
  - intros Hknown Hproto. unfold Builtins.member.
    assert (Hnone : PaymentFormPage.statusMap !! s = None).
    { unfold PaymentFormPage.statusMap.
      rewrite !lookup_insert_ne, lookup_singleton_ne; [done|..];
        intros <-; apply Hknown; set_solver. }
    rewrite Hnone. by rewrite bool_decide_eq_false_2.
  - intros Hs. repeat (apply elem_of_cons in Hs as [-> | Hs]; [by vm_compute|]).
    by apply elem_of_nil in Hs.
Qed.

(** ** The list pages *)

Section ListPages.
Import Handlers Spec.
Context {W : Type}.
Variable send : AxiosRequestConfig → W → outcome * W.
Variable env : Env.env.

(** X11: [loadMerchants] makes one request, a GET of
    [/api/v1/merchants/all] at the merchant service without credential,
    and ends with [loading] off; on success the list is the response
    body and the error is cleared; on failure the list shown before
    stays and a non-empty error is shown, the server's detail text when
    there is one. *)
Theorem loadMerchants_keeps_list (st : MerchantsPage.state) (w : W) :
  let listing :=
    {| headers := {[ "Content-Type" := VStr "application/json" ]};
       props := {[ "baseURL" := VStr (Merchants.merchantServiceUrl env);
                   "method" := VStr "get";
                   "url" := VStr "/api/v1/merchants/all" ]} |} in
  let out := MerchantsPage.loadMerchants send env st {| world := w; log := [] |} in
  out.2 = {| world := (send listing w).2; log := [(listing, (send listing w).1)] |}
  ∧ MerchantsPage.loading out.1 = false
  ∧ (∀ r, (send listing w).1 = inr r →
       MerchantsPage.merchants out.1 = data r ∧ MerchantsPage.error out.1 = VNull)
  ∧ (∀ e, (send listing w).1 = inl e →
       MerchantsPage.merchants out.1 = MerchantsPage.merchants st
       ∧ truthy (MerchantsPage.error out.1) = true
       ∧ ∀ r (b : gmap string value) (d : string),
           response e = Some r → data r = VObj b → b !! "detail" = Some (VStr d) →
           d ≠ "" → MerchantsPage.error out.1 = VStr d).
Proof.
  intros listing out. subst out. unfold MerchantsPage.loadMerchants.
  change (Merchants.getAllMerchants send env {| world := w; log := [] |})
    with (run (Merchants.getAllMerchants send env) w).
  rewrite getAllMerchants_run. cbv zeta. fold listing.
  destruct (send listing w) as [[e|r] w']; cbn [fst snd settled]; split_and!; try done.
  - intros ? [= <-]. split_and!; [done| |].
    + by apply error_text_truthy.
    + intros. by eapply error_text_detail.
  - by intros ? [= <-].
Qed.

(** X12: when a date changes nothing is requested as long as either date
    is empty; with both dates set, one GET of [/api/v1/payments/all]
    goes to the payment service with the two dates as [date_from] and
    [date_to], the dates stay as they are, and the list is replaced on
    success and kept, with an error, on failure. *)
Theorem datesChanged_loads (st : PaymentsPage.state) (w : W) :
  let listing :=
    {| headers := {[ "Content-Type" := VStr "application/json" ]};
       props := {[ "baseURL" := VStr (Merchants.paymentServiceUrl env);
                   "method" := VStr "get";
                   "params" := VObj {[ "date_from" := VStr (PaymentsPage.dateFrom st);
                                       "date_to" := VStr (PaymentsPage.dateTo st) ]};
                   "url" := VStr "/api/v1/payments/all" ]} |} in
  let net := {| world := w; log := [] |} in
  let out := PaymentsPage.datesChanged send env st net in
  (PaymentsPage.dateFrom st = "" ∨ PaymentsPage.dateTo st = "" → out = (st, net))
  ∧ (PaymentsPage.dateFrom st ≠ "" → PaymentsPage.dateTo st ≠ "" →
     out.2 = {| world := (send listing w).2; log := [(listing, (send listing w).1)] |}
     ∧ PaymentsPage.loading out.1 = false
     ∧ PaymentsPage.dateFrom out.1 = PaymentsPage.dateFrom st
     ∧ PaymentsPage.dateTo out.1 = PaymentsPage.dateTo st
     ∧ (∀ r, (send listing w).1 = inr r →
          PaymentsPage.payments out.1 = data r ∧ PaymentsPage.error out.1 = VNull)
     ∧ (∀ e, (send listing w).1 = inl e →
          PaymentsPage.payments out.1 = PaymentsPage.payments st
          ∧ truthy (PaymentsPage.error out.1) = true)).
Proof.
  intros listing net out. subst out net. unfold PaymentsPage.datesChanged. split.
  - intros [-> | ->]; cbn [truthy String.eqb negb andb]; [done|].
    by destruct (negb _).
  - intros Hfrom Hto.
    assert (Ht : ∀ s, s ≠ "" → truthy (VStr s) = true) by (by intros []).
    rewrite (Ht _ Hfrom), (Ht _ Hto). cbn [andb]. unfold PaymentsPage.loadPayments.
    change (Payments.getAllPayments send env ?a ?b {| world := w; log := [] |})
      with (run (Payments.getAllPayments send env a b) w).
    rewrite getAllPayments_run. cbv zeta. fold listing.
    destruct (send listing w) as [[e|r] w']; cbn [fst snd settled]; split_and!; try done.
    + intros ? [= <-]. split; [done|]. by apply error_text_truthy.
    + by intros ? [= <-].
Qed.

End ListPages.

(** ** The merchant panel *)

Section PanelMore.
Import Handlers MerchantPanel Spec.
Context {W : Type}.
Variable send : AxiosRequestConfig → W → outcome * W.
Variable env : Env.env.

(** X13: a logo file is accepted exactly when its type starts with
    [image/] and its size is at most 5 * 1024 * 1024 bytes. An accepted
    file is stored and clears the error; a rejected one only sets an
    error and leaves the file, the preview and the URL chosen before;
    the type is checked before the size; no file means no change. *)
Theorem logo_file_bounds (f : File.t) (st : state) :
  let out := handleCreateLogoFileChange (Some f) st in
  (out.2 = Some f ↔
   String.prefix "image/" (File.type f) = true ∧ (File.size f ≤ 5242880)%N)
  ∧ (out.2 = Some f → out.1 = setError VNull (setLogo (Some f) (createLogoPreview st)
                                               (createLogoUrl st) st))
  ∧ (out.2 ≠ Some f →
     out.2 = None
     ∧ createLogoFile out.1 = createLogoFile st
     ∧ createLogoPreview out.1 = createLogoPreview st
     ∧ createLogoUrl out.1 = createLogoUrl st
     ∧ truthy (error out.1) = true)
  ∧ (String.prefix "image/" (File.type f) = false →
     error out.1 = VStr "Пожалуйста, выберите изображение")
  ∧ handleCreateLogoFileChange None st = (st, None).
Proof.
  intros out. subst out. unfold handleCreateLogoFileChange.
  destruct (String.prefix "image/" (File.type f)) eqn:Htype; cbn [negb].
  - destruct (5 * 1024 * 1024 <? File.size f)%N eqn:Hsize; cbn [fst snd].
    + apply N.ltb_lt in Hsize. split_and!; try done.
      split; [done|]. intros [_ Hle]. lia.
    + apply N.ltb_ge in Hsize. by split_and!.
  - cbn [fst snd]. split_and!; try done. split; [done|]. by intros [? _].
Qed.

(** X14: [handleGetDashboard] touches the dashboard hooks only and ends
    with [dashboardLoading] off. On success it shows the view and no
    error; on failure the dashboard shown before stays on screen next
    to a non-empty error, which is the server's detail text when, for
    instance, the payment listing fails with one. *)
Theorem handleGetDashboard_keeps_view (st : state) (w : W) :
  let result := run (Merchants.getDashboard send env (dashboardApiKey st)) w in
  let out := handleGetDashboard send env st {| world := w; log := [] |} in
  out.2 = result.2
  ∧ (∃ d e, out.1 = setDashboard d e false st)
  ∧ (∀ view, result.1 = inr view →
       dashboardData out.1 = view ∧ dashboardError out.1 = VNull)
  ∧ (∀ err, result.1 = inl err →
       dashboardData out.1 = dashboardData st ∧ truthy (dashboardError out.1) = true)
  ∧ (∀ r1 w1 r2 w2 merchantId e w3 r (b : gmap string value) (d : string),
       send (dashboard_step env (dashboardApiKey st)) w = (inr r1, w1) →
       send (merchant_step env (dashboardApiKey st)) w1 = (inr r2, w2) →
       JS.get (data r2) "id" = inr merchantId →
       send (payments_step env merchantId) w2 = (inl e, w3) →
       response e = Some r → data r = VObj b → b !! "detail" = Some (VStr d) → d ≠ "" →
       dashboardData out.1 = dashboardData st ∧ dashboardError out.1 = VStr d).
Proof.
  intros result out. subst result out. unfold handleGetDashboard.
  change (Merchants.getDashboard send env (dashboardApiKey st) {| world := w; log := [] |})
    with (run (Merchants.getDashboard send env (dashboardApiKey st)) w).
  split_and!.
  - by destruct (run _ w) as [[err|view] net'].
  - destruct (run _ w) as [[err|view] net']; by eexists _, _.
  - intros view Hv. destruct (run _ w) as [[err|view'] net']; by simplify_eq/=.
  - intros err He. destruct (run _ w) as [[err'|view] net']; simplify_eq/=.
    split; [done|]. by apply error_text_truthy.
  - intros r1 w1 r2 w2 merchantId e w3 r b d H1 H2 Hid H3 Hr Hd Hb Hne.
    rewrite getDashboard_run. cbv zeta. rewrite H1, H2, Hid, H3. cbn [fst snd].
    split; [done|]. cbn [dashboardError setDashboard]. by eapply error_text_detail.
Qed.

End PanelMore.

(** ** The provider page *)

Section ProviderMore.
Import Providers ProviderPage.
Context {W : Type}.
Variable fetch : Request → W → (string + Response) * W.
Variable env : Env.env.

(** X15: [handleProviderChange] always ends with [loading] off and the
    registry untouched, and never shows the success banner together
    with an error. After a successful response the current provider is
    what the server reports in [current_provider] (not the key that was
    asked for); a successful response that is not JSON changes
    nothing and is reported as an error. *)
Theorem switch_accepted (providerName : value) (st : state) (w : W) :
  let out := handleProviderChange fetch env providerName st w in
  out.2 = (fetch (switch_request env providerName) w).2
  ∧ loading out.1 = false
  ∧ availableProviders out.1 = availableProviders st
  ∧ (success out.1 = true → error out.1 = None)
  ∧ (∀ response w' (data : gmap string value),
       fetch (switch_request env providerName) w = (inr response, w') →
       ok response = true → json response = inr (VObj data) →
       out.1 = {| currentProvider := default VUndefined (data !! "current_provider");
                  availableProviders := availableProviders st;
                  loading := false; error := None; success := true |})
  ∧ (∀ response w' message,
       fetch (switch_request env providerName) w = (inr response, w') →
       ok response = true → json response = inl message →
       currentProvider out.1 = currentProvider st
       ∧ success out.1 = false ∧ is_Some (error out.1)).
Proof.
  intros out. subst out. unfold handleProviderChange, attempt.
  destruct (fetch (switch_request env providerName) w) as [[message|response] w'];
    cbn [fst snd].
  { by split_and!. }
  destruct (ok response) eqn:Hok; cbn [negb].
  - destruct (json response) as [message|data] eqn:Hjson.
    + split_and!; try done; settle.
    + destruct (JS.get data "current_provider") as [message|cur] eqn:Hcur;
        split_and!; try done; settle.
  - destruct (json response) as [message|errorData].
    + split_and!; try done; settle.
    + destruct (JS.get errorData "detail"); split_and!; try done; settle.
Qed.

(** X16: [loadProvider] never changes [loading] or [success]. A
    successful response sets the current provider and the registry
    from its body and leaves the error as it was; a failure status
    gives a fixed message; when the request itself fails the provider
    and the registry stay as they were and an error is shown. *)
Theorem loadProvider_sets_registry (st : state) (w : W) :
  let out := loadProvider fetch env st w in
  out.2 = (fetch (load_request env) w).2
  ∧ loading out.1 = loading st ∧ success out.1 = success st
  ∧ (∀ response w' (data : gmap string value),
       fetch (load_request env) w = (inr response, w') →
       ok response = true → json response = inr (VObj data) →
       out.1 = {| currentProvider := default VUndefined (data !! "current_provider");
                  availableProviders := default VUndefined (data !! "available_providers");
                  loading := loading st; error := error st; success := success st |})
  ∧ (∀ response w',
       fetch (load_request env) w = (inr response, w') → ok response = false →
       out.1 = setError (Some "Не удалось загрузить информацию о провайдере") st)
  ∧ (∀ message w',
       fetch (load_request env) w = (inl message, w') →
       currentProvider out.1 = currentProvider st
       ∧ availableProviders out.1 = availableProviders st
       ∧ is_Some (error out.1)).
Proof.
  intros out. subst out. unfold loadProvider, load_attempt.
  destruct (fetch (load_request env) w) as [[message|response] w']; cbn [fst snd].
  { split_and!; try done; settle. }
  destruct (ok response) eqn:Hok; cbn [negb].
  - destruct (json response) as [message|data] eqn:Hjson.
    + split_and!; try done; settle.
    + destruct (JS.get data "current_provider") as [message|cur] eqn:Hcur.
      * split_and!; try done; settle.
      * destruct (JS.get data "available_providers") as [message|avail] eqn:Havail;
          split_and!; try done; settle.
  - split_and!; try done; settle.
Qed.

End ProviderMore.

(** ** Links *)

Section Links.
Import Builtins.

Lemma append_cons (c : Ascii.ascii) (x y : string) :
  String c x +:+ y = String c (x +:+ y).
Proof. reflexivity. Qed.

Lemma append_assoc (x y z : string) : (x +:+ y) +:+ z = x +:+ y +:+ z.
Proof. induction x as [|c x IH]; [done|]. rewrite !append_cons. by f_equal. Qed.

Lemma append_cancel (x y z : string) : x +:+ y = x +:+ z → y = z.
Proof.
  induction x as [|c x IH]; [done|]. rewrite !append_cons. intros [= H]. by apply IH.
Qed.

Lemma split_whole (sep : Ascii.ascii) (a : string) :
  occurs sep a = false → split sep a = [a].
Proof.
  induction a as [|c a IH]; simpl; [done|].
  intros [Hc Ha]%orb_false_elim. rewrite Ascii.eqb_sym, Hc. by rewrite IH.
Qed.

Lemma split_first (sep : Ascii.ascii) (a t : string) :
  occurs sep a = false → split sep (a +:+ String sep t) = a :: split sep t.
Proof.
  induction a as [|c a IH]; [|rewrite append_cons]; simpl.
  - intros _. change ("" +:+ String sep t) with (String sep t). simpl.
    by rewrite Ascii.eqb_refl.
  - intros [Hc Ha]%orb_false_elim. rewrite Ascii.eqb_sym, Hc. by rewrite IH.
Qed.

(** X17: for an origin [scheme:rest] or [scheme:rest:port], where
    neither [scheme] nor [rest] holds a colon, [getPortUrl] gives
    [scheme:rest:<port>], replacing the port of the origin if there is
    one; whatever follows the second colon is dropped, so an origin
    with an IPv6 literal is cut inside the brackets; an origin without
    a colon just gets the port appended. *)
Theorem getPortUrl_replaces_port (a b : string) (port : value) :
  occurs PortsPage.colon a = false →
  occurs PortsPage.colon b = false →
  let url := a +:+ ":" +:+ b +:+ ":" +:+ ToString port in
  PortsPage.getPortUrl (a +:+ ":" +:+ b) port = url
  ∧ (∀ rest, PortsPage.getPortUrl (a +:+ ":" +:+ b +:+ ":" +:+ rest) port = url)
  ∧ PortsPage.getPortUrl a port = a +:+ ":" +:+ ToString port.
Proof.
  intros Ha Hb url. subst url. unfold PortsPage.getPortUrl.
  generalize (ToString port). intros p.
  split_and!.
  - change (split PortsPage.colon (a +:+ ":" +:+ b))
      with (split PortsPage.colon (a +:+ String PortsPage.colon b)).
    rewrite (split_first _ a b Ha), (split_whole _ b Hb).
    cbn [take join]. by rewrite append_assoc.
  - intros rest.
    change (split PortsPage.colon (a +:+ ":" +:+ b +:+ ":" +:+ rest))
      with (split PortsPage.colon
              (a +:+ String PortsPage.colon (b +:+ String PortsPage.colon rest))).
    rewrite (split_first _ a _ Ha), (split_first _ b rest Hb).
    cbn [take join]. by rewrite append_assoc.
  - by rewrite (split_whole _ a Ha).
Qed.

Lemma hex_digit_code (n : N) :
  (n < 16)%N →
  Ascii.N_of_ascii (hex_digit n) = (if (n <? 10)%N then 48 + n else 55 + n)%N.
Proof.
  intros Hn. unfold hex_digit. apply Ascii.N_ascii_embedding.
  destruct (n <? 10)%N eqn:E; [apply N.ltb_lt in E | apply N.ltb_ge in E]; lia.
Qed.

Lemma hex_digit_inj (n m : N) :
  (n < 16)%N → (m < 16)%N → hex_digit n = hex_digit m → n = m.
Proof.
  intros Hn Hm Heq.
  assert (H : Ascii.N_of_ascii (hex_digit n) = Ascii.N_of_ascii (hex_digit m))
    by (by rewrite Heq).
  rewrite !hex_digit_code in H by done.
  destruct (n <? 10)%N eqn:En, (m <? 10)%N eqn:Em;
    try apply N.ltb_lt in En; try apply N.ltb_ge in En;
    try apply N.ltb_lt in Em; try apply N.ltb_ge in Em; lia.
Qed.

Lemma hex_digit_safe (n : N) :
  (n < 16)%N → unreserved (hex_digit n) = true.
Proof.
  intros Hn.
  assert (Hcases : n ∈ (N.of_nat <$> seq 0 16)).
  { apply list_elem_of_fmap. exists (N.to_nat n). split; [lia|].
    apply elem_of_seq. lia. }
  simpl in Hcases.
  repeat (apply elem_of_cons in Hcases as [-> | Hcases]; [by vm_compute|]).
  by apply elem_of_nil in Hcases.
Qed.

Lemma encodeURIComponent_inj (s t : string) :
  encodeURIComponent s = encodeURIComponent t → s = t.
Proof.
  revert t. induction s as [|c s IH]; intros [|d t]; simpl.
  - done.
  - destruct (unreserved d); discriminate.
  - destruct (unreserved c); discriminate.
  - destruct (unreserved c) eqn:Hc, (unreserved d) eqn:Hd; simpl.
    + intros [= -> H]. by rewrite (IH t H).
    + intros [= -> _]. discriminate.
    + intros [= <- _]. discriminate.
    + intros [= Hhi Hlo H].
      pose proof (Ascii.N_ascii_bounded c) as Bc.
      pose proof (Ascii.N_ascii_bounded d) as Bd.
      apply hex_digit_inj in Hhi;
        [|apply N.Div0.div_lt_upper_bound; lia | apply N.Div0.div_lt_upper_bound; lia].
      apply hex_digit_inj in Hlo; [|apply N.mod_lt; lia | apply N.mod_lt; lia].
      assert (Hn : Ascii.N_of_ascii c = Ascii.N_of_ascii d).
      { rewrite (N.div_mod' (Ascii.N_of_ascii c) 16), (N.div_mod' (Ascii.N_of_ascii d) 16).
        by rewrite Hhi, Hlo. }
      f_equal; [|by apply IH].
      by rewrite <- (Ascii.ascii_N_embedding c), <- (Ascii.ascii_N_embedding d), Hn.
Qed.

Lemma encodeURIComponent_safe (s : string) (c : Ascii.ascii) :
  occurs c (encodeURIComponent s) = true →
  unreserved c = true ∨ c = Ascii.ascii_of_N 37.
Proof.
  induction s as [|d s IH]; simpl; [done|].
  destruct (unreserved d) eqn:Hd; simpl.
  - intros [Hc | Hc]%orb_true_elim; [|by apply IH].
    apply Ascii.eqb_eq in Hc as ->. by left.
  - pose proof (Ascii.N_ascii_bounded d) as Bd.
    intros H. repeat (apply orb_true_elim in H as [H | H]).
    + apply Ascii.eqb_eq in H as ->. by right.
    + apply Ascii.eqb_eq in H as ->. left. apply hex_digit_safe.
      apply N.Div0.div_lt_upper_bound; lia.
    + apply Ascii.eqb_eq in H as ->. left. apply hex_digit_safe. apply N.mod_lt; lia.
    + by apply IH.
Qed.

Lemma encodeURIComponent_plain (s : string) :
  (∀ c, occurs c s = true → unreserved c = true) → encodeURIComponent s = s.
Proof.
  induction s as [|d s IH]; simpl; [done|]. intros H.
  rewrite (H d) by (by rewrite Ascii.eqb_refl).
  rewrite IH; [done|]. intros c Hc. apply H. by rewrite Hc, orb_true_r.
Qed.

(** X18: the dashboard link is the merchant service address, the path
    [/api/v1/dashboard?api_key=] and the percent-encoded key. The
    encoded key holds unreserved characters and [%] only, so no [&],
    [=], [#] or space of a key reaches the query; a key of unreserved
    characters is included as it is; different keys give different
    links. *)
Theorem getDashboardUrl_encodes (env : Env.env) (apiKey : value) :
  ∃ query,
    MerchantsPage.getDashboardUrl env apiKey
    = Merchants.merchantServiceUrl env +:+ "/api/v1/dashboard?api_key=" +:+ query
    ∧ (∀ c, occurs c query = true → unreserved c = true ∨ c = Ascii.ascii_of_N 37)
    ∧ ((∀ c, occurs c (ToString apiKey) = true → unreserved c = true) →
       query = ToString apiKey)
    ∧ (∀ other, MerchantsPage.getDashboardUrl env other
                = MerchantsPage.getDashboardUrl env apiKey →
                ToString other = ToString apiKey).
Proof.
  exists (encodeURIComponent (ToString apiKey)). split_and!.
  - done.
  - apply encodeURIComponent_safe.
  - apply encodeURIComponent_plain.
  - intros other H. unfold MerchantsPage.getDashboardUrl in H.
    apply append_cancel, append_cancel in H. by apply encodeURIComponent_inj.
Qed.

End Links.

(** ** Instances *)

(** A branding update answered 404: no second attempt is made. *)
Lemma updateMerchant_single_patch_witness :
  let first := Examples.failed 404 (VObj {[ "detail" := VStr "Not Found" ]}) in
  let second := Examples.answered 200 (VObj {[ "id" := VStr "m_1" ]}) in
  ∃ patch,
    run (Merchants.updateMerchant Examples.scripted Examples.local (VStr "sk_demo")
           (VObj {[ "primary_color" := VStr "#0055ff" ]}))
      [inl first; second]
    = (inl (LibError first), {| world := [second]; log := [(patch, inl first)] |}).
Proof.
  intros first second. eexists.
  apply (updateMerchant_single_patch Examples.scripted Examples.local "sk_demo"
           {[ "primary_color" := VStr "#0055ff" ]} [inl first; second]).
  discriminate.
Defined.

(** The merchant and the dashboard arrive, the payment service is down:
    the third request went to the payment service. *)
Lemma getDashboard_request_order_witness :
  let l := log (run (Merchants.getDashboard Examples.scripted Examples.local (VStr "sk_demo"))
                  [Examples.answered 200 (VStr "<html></html>");
                   Examples.answered 200 (VObj {[ "id" := VStr "m_1" ]})]).2 in
  ∃ x, l !! 2 = Some x ∧ Spec.target x.1 = Some (VStr "http://localhost:8002").
Proof.
  intros l.
  destruct (getDashboard_request_order Examples.scripted Examples.local (VStr "sk_demo")
              [Examples.answered 200 (VStr "<html></html>");
               Examples.answered 200 (VObj {[ "id" := VStr "m_1" ]})]) as (_ & _ & H).
  eexists. split; [reflexivity|].
  exact (proj1 (H _ eq_refl)).
Defined.

(** A merchant record without an [id]. *)
Lemma getDashboard_missing_id_witness :
  ∃ listing o,
    log (run (Merchants.getDashboard Examples.scripted Examples.local (VStr "sk_demo"))
           [Examples.answered 200 (VStr "<html></html>");
            Examples.answered 200 (VObj {[ "name" := VStr "Demo Shop" ]});
            Examples.answered 200 (VArr [])]).2 !! 2 = Some (listing, o)
    ∧ props listing !! "url" = Some (VStr "/api/v1/payments/by-merchant/undefined").
Proof.
  destruct (getDashboard_missing_id Examples.scripted Examples.local (VStr "sk_demo")
              [Examples.answered 200 (VStr "<html></html>");
               Examples.answered 200 (VObj {[ "name" := VStr "Demo Shop" ]});
               Examples.answered 200 (VArr [])]
              {| status := 200; data := VStr "<html></html>" |} _
              {| status := 200; data := VObj {[ "name" := VStr "Demo Shop" ]} |} _
              eq_refl eq_refl) as [H _].
  exact (H {[ "name" := VStr "Demo Shop" ]} eq_refl eq_refl).
Defined.

(** [createPayment] called without a payment. *)
Lemma createPayment_request_order_witness :
  length (log (run (Payments.createPayment Examples.scripted Examples.local
                      (VStr "sk_demo") VUndefined)
                 [Examples.answered 200 (VObj {[ "id" := VStr "m_1" ]});
                  Examples.answered 201 (VObj {[ "id" := VStr "p_1" ]})]).2) = 1.
Proof.
  destruct (createPayment_request_order Examples.scripted Examples.local
              (VStr "sk_demo") VUndefined
              [Examples.answered 200 (VObj {[ "id" := VStr "m_1" ]});
               Examples.answered 201 (VObj {[ "id" := VStr "p_1" ]})]) as [_ H].
  destruct H as [H _]; [by right|]. exact H.
Defined.

(** The merchant service does not know the key. *)
Lemma handleSubmit_reports_witness :
  let out := (PaymentFormPage.handleSubmit Examples.scripted Examples.local Samples.filled
                {| world := [inl (Examples.failed 401
                                    (VObj {[ "detail" := VStr "Invalid API key" ]}))];
                   log := [] |}).1 in
  PaymentFormPage.paymentResult out.1 = VNull
  ∧ truthy (PaymentFormPage.error out.1) = true.
Proof.
  intros out.
  destruct (handleSubmit_reports Examples.scripted Examples.local Samples.filled
              {| world := [inl (Examples.failed 401
                                  (VObj {[ "detail" := VStr "Invalid API key" ]}))];
                 log := [] |}) as (_ & _ & _ & _ & H & _).
  eapply H. reflexivity.
Defined.

Lemma handleSubmit_rejected_credential_witness :
  let rejection := Examples.failed 401 (VObj {[ "detail" := VStr "Invalid API key" ]}) in
  ∃ lookup,
    PaymentFormPage.handleSubmit Examples.scripted Examples.local Samples.filled
      {| world := [inl rejection]; log := [] |}
    = (({| PaymentFormPage.formData := PaymentFormPage.formData Samples.filled;
           PaymentFormPage.paymentResult := VNull;
           PaymentFormPage.error := VStr "Invalid API key";
           PaymentFormPage.loading := false |}, []),
       {| world := []; log := [(lookup, inl rejection)] |}).
Proof.
  intros rejection. eexists.
  apply (handleSubmit_rejected_credential Examples.scripted Examples.local Samples.filled
           [inl rejection] rejection [] {| status := 401;
                                           data := VObj {[ "detail" := VStr "Invalid API key" ]} |}
           {[ "detail" := VStr "Invalid API key" ]} "Invalid API key");
    [reflexivity | reflexivity | reflexivity | reflexivity | discriminate].
Defined.

(** The currency is changed to USD before submitting. *)
Lemma handleSubmit_sends_form_witness :
  Spec.submitted
    (log (PaymentFormPage.handleSubmit Examples.scripted Examples.local
            (PaymentFormPage.handleChange "currency" (VStr "USD") Samples.filled)
            {| world := [Examples.answered 200 (VObj {[ "id" := VStr "m_1" ]});
                         Examples.answered 201 (VObj {[ "id" := VStr "p_1" ]})];
               log := [] |}).2)
    "currency"
  = Some (VStr "USD").
Proof.
  destruct (handleSubmit_sends_form Examples.scripted Examples.local "currency" (VStr "USD")
              Samples.filled
              [Examples.answered 200 (VObj {[ "id" := VStr "m_1" ]});
               Examples.answered 201 (VObj {[ "id" := VStr "p_1" ]})]) as [H _];
    [by vm_compute|].
  apply H. by left.
Defined.

(** A payment waiting for its challenge. *)
Lemma getStatusBadgeClass_total_witness :
  PaymentFormPage.getStatusBadgeClass (VStr "requires_action")
  = inl (VStr "status-requires_action").
Proof.
  destruct (getStatusBadgeClass_total (VStr "requires_action")) as [H _].
  apply H. set_solver.
Defined.

(** The merchant service is down while the list is reloaded. *)
Lemma loadMerchants_keeps_list_witness :
  let shown := VArr [VObj {[ "id" := VStr "m_1" ]}] in
  let out := MerchantsPage.loadMerchants Examples.scripted Examples.local
               {| MerchantsPage.merchants := shown; MerchantsPage.loading := false;
                  MerchantsPage.error := VNull |}
               {| world := []; log := [] |} in
  MerchantsPage.merchants out.1 = shown ∧ truthy (MerchantsPage.error out.1) = true.
Proof.
  intros shown out.
  destruct (loadMerchants_keeps_list Examples.scripted Examples.local
              {| MerchantsPage.merchants := shown; MerchantsPage.loading := false;
                 MerchantsPage.error := VNull |} []) as (_ & _ & _ & H).
  destruct (H Examples.refused eq_refl) as (H1 & H2 & _). by split.
Defined.

(** Only the first date is chosen. *)
Lemma datesChanged_loads_witness :
  let st := {| PaymentsPage.payments := VArr []; PaymentsPage.loading := false;
               PaymentsPage.error := VNull; PaymentsPage.dateFrom := "2024-01-01";
               PaymentsPage.dateTo := "" |} in
  let net := {| world := [Examples.answered 200 (VArr [])]; log := [] |} in
  PaymentsPage.datesChanged Examples.scripted Examples.local st net = (st, net).
Proof.
  intros st net.
  destruct (datesChanged_loads Examples.scripted Examples.local st
              [Examples.answered 200 (VArr [])]) as [H _].
  apply H. by right.
Defined.

(** A PNG of exactly five mebibytes. *)
Lemma logo_file_bounds_witness :
  let f := {| MerchantPanel.File.type := "image/png";
              MerchantPanel.File.size := 5242880 |} in
  (MerchantPanel.handleCreateLogoFileChange (Some f) Samples.panel).2 = Some f.
Proof.
  intros f. destruct (logo_file_bounds f Samples.panel) as [H _].
  apply H. split; [reflexivity|]. reflexivity.
Defined.

(** A dashboard is on screen and the next request for it is refused. *)
Lemma handleGetDashboard_keeps_view_witness :
  let out := MerchantPanel.handleGetDashboard Examples.scripted Examples.local Samples.panel
               {| world := []; log := [] |} in
  MerchantPanel.dashboardData out.1 = VObj {[ "payments" := VArr [] ]}
  ∧ truthy (MerchantPanel.dashboardError out.1) = true.
Proof.
  intros out.
  destruct (handleGetDashboard_keeps_view Examples.scripted Examples.local Samples.panel [])
    as (_ & _ & _ & H & _).
  apply (H (LibError Examples.refused)). reflexivity.
Defined.

Lemma switch_accepted_witness :
  Providers.handleProviderChange Samples.accepting Examples.local (VStr "mock_3ds")
    Examples.loaded tt
  = ({| Providers.currentProvider := VStr "mock_3ds";
        Providers.availableProviders := Providers.availableProviders Examples.loaded;
        Providers.loading := false;
        Providers.error := None;
        Providers.success := true |}, tt).
Proof.
  destruct (switch_accepted Samples.accepting Examples.local (VStr "mock_3ds") Examples.loaded tt)
    as (Hw & _ & _ & _ & H & _).
  apply injective_projections; [|exact Hw].
  exact (H {| Providers.ok := true;
              Providers.json := inr (VObj {[ "current_provider" := VStr "mock_3ds" ]}) |}
           tt {[ "current_provider" := VStr "mock_3ds" ]} eq_refl eq_refl eq_refl).
Defined.

(** The payment service answers 500 when the page loads. *)
Lemma loadProvider_sets_registry_witness :
  (ProviderPage.loadProvider
     (λ _ w, (inr {| Providers.ok := false; Providers.json := inl "Unexpected token" |}, w))
     Examples.local Examples.loaded tt).1
  = Providers.setError (Some "Не удалось загрузить информацию о провайдере")
      Examples.loaded.
Proof.
  destruct (loadProvider_sets_registry
              (λ _ w, (inr {| Providers.ok := false;
                              Providers.json := inl "Unexpected token" |}, w))
              Examples.local Examples.loaded tt) as (_ & _ & _ & _ & H & _).
  eapply H; reflexivity.
Defined.

(** The console served from port 5173 of localhost, and from an IPv6
    literal. *)
Lemma getPortUrl_replaces_port_witness :
  PortsPage.getPortUrl "http://localhost:5173" (VNum 8000) = "http://localhost:8000"
  ∧ PortsPage.getPortUrl "http://[::1]:5173" (VNum 8000) = "http://[:8000".
Proof.
  split.
  - exact (proj1 (proj2 (getPortUrl_replaces_port "http" "//localhost" (VNum 8000)
                           eq_refl eq_refl)) "5173").
  - exact (proj1 (proj2 (getPortUrl_replaces_port "http" "//[" (VNum 8000)
                           eq_refl eq_refl)) ":1]:5173").
Defined.

(** A key of letters, digits and underscores goes into the link as it
    is. *)
Lemma getDashboardUrl_encodes_witness :
  MerchantsPage.getDashboardUrl Examples.local (VStr "sk_live_42")
  = "http://localhost:8001/api/v1/dashboard?api_key=sk_live_42".
Proof.
  destruct (getDashboardUrl_encodes Examples.local (VStr "sk_live_42"))
    as (query & Hurl & _ & Hplain & _).
  rewrite Hurl, Hplain; [reflexivity|].
  intros c Hc. simpl in Hc.
  repeat (apply orb_true_elim in Hc as [Hc | Hc];
          [apply Ascii.eqb_eq in Hc as ->; reflexivity|]).
  discriminate.
Defined.
